(** * The data fetcher of the dashboard ([src/lib/fetcher.tsx])

    A shallow embedding of the module that loads the five JSON resources
    of the dashboard (apps, bookmarks, search providers, themes, imprint)
    and of the [useFetcher] hook that stores them, followed by the
    properties of the loading and error-isolation layer.

    JavaScript objects are finite maps from property names to values
    (stdpp's [gmap]), promises are represented by the state they settle in,
    and the network is an explicit environment that is read by [fetch]. *)

From stdpp Require Import gmap strings list fin_maps pretty.
From Stdlib Require Import ZArith NArith Ascii.

#[local] Set Warnings "-register-all".
#[local] Open Scope string_scope.
#[local] Open Scope list_scope.

(** ** The JavaScript fragment the module is written in *)

Module JS.

(** Values.  A number is kept as an integer: the module never computes
    with numbers, only their truthiness is ever observed, and a JSON
    number is falsy exactly when it is zero. *)
Inductive value : Type :=
| VUndefined
| VNull
| VBool (b : bool)
| VNum (n : Z)
| VStr (s : string)
| VArr (l : list value)
| VObj (o : gmap string value).

(** [ToBoolean]. *)
Definition truthy (v : value) : bool :=
  match v with
  | VUndefined | VNull => false
  | VBool b => b
  | VNum n => negb (n =? 0)%Z
  | VStr s => negb (String.eqb s "")
  | VArr _ | VObj _ => true
  end.

(** A thrown [Error] object. *)
Record Error := mkError { name : string; message : string }.

(** The outcome of evaluating an expression or statement. *)
Inductive completion (A : Type) : Type :=
| Normal (a : A)
| Throw (e : Error).
Arguments Normal {A} a.
Arguments Throw {A} e.

(** [v.error].  Reading a property of [undefined] or [null] throws a
    [TypeError]; a primitive, an array or an object without the
    property yields [undefined]. *)
Definition get_error (v : value) : completion value :=
  match v with
  | VUndefined =>
      Throw (mkError "TypeError" "Cannot read properties of undefined (reading 'error')")
  | VNull =>
      Throw (mkError "TypeError" "Cannot read properties of null (reading 'error')")
  | VObj o => Normal (default VUndefined (o !! "error"))
  | _ => Normal VUndefined
  end.

(** A string of JavaScript is a sequence of UTF-16 code units; a string
    of the model holds its bytes in UTF-8, a surrogate that stands alone
    being written in three bytes like any other code unit of that size.
    [code_units] cuts the bytes into the code units: one for a sequence
    of one, two or three bytes, the two surrogates for a sequence of
    four bytes. *)
Definition byte (c : ascii) : N := N_of_ascii c.

Definition three_bytes (u : N) : string :=
  String (ascii_of_N (224 + u / 4096))
    (String (ascii_of_N (128 + (u / 64) mod 64))
       (String (ascii_of_N (128 + u mod 64)) "")).

Fixpoint code_units (bs : list ascii) : list string :=
  match bs with
  | [] => []
  | b1 :: rest1 =>
      if (byte b1 <? 192)%N then String b1 "" :: code_units rest1
      else
        match rest1 with
        | [] => [String b1 ""]
        | b2 :: rest2 =>
            if (byte b1 <? 224)%N then String b1 (String b2 "") :: code_units rest2
            else
              match rest2 with
              | [] => [String b1 (String b2 "")]
              | b3 :: rest3 =>
                  if (byte b1 <? 240)%N
                  then String b1 (String b2 (String b3 "")) :: code_units rest3
                  else
                    match rest3 with
                    | [] => [String b1 (String b2 (String b3 ""))]
                    | b4 :: rest4 =>
                        let point :=
                          ((byte b1 mod 8) * 262144 + (byte b2 mod 64) * 4096
                           + (byte b3 mod 64) * 64 + byte b4 mod 64)%N in
                        let offset := (point - 65536)%N in
                        three_bytes (55296 + offset / 1024)
                          :: three_bytes (56320 + offset mod 1024)
                          :: code_units rest4
                    end
              end
        end
  end.

(** The own enumerable properties copied by [{...v}]: the properties
    of an object, the indexed elements of an array, the indexed code
    units of a string, nothing for the other values. *)
Definition indexed (l : list value) : gmap string value :=
  list_to_map (imap (fun i x => (pretty i, x)) l).

Definition spread (v : value) : gmap string value :=
  match v with
  | VObj o => o
  | VArr l => indexed l
  | VStr s => indexed (VStr <$> code_units (String.list_ascii_of_string s))
  | _ => ∅
  end.

(** Promises, by the state they settle in; [Pending] is a promise that
    never settles. *)
Inductive Promise (A : Type) : Type :=
| Pending
| Fulfilled (a : A)
| Rejected (e : Error).
Arguments Pending {A}.
Arguments Fulfilled {A} a.
Arguments Rejected {A} e.

(** [p.then(f)]: a handler that throws is a handler that returns a
    rejected promise, so handlers are functions into [Promise]. *)
Definition then_ {A B} (p : Promise A) (f : A -> Promise B) : Promise B :=
  match p with
  | Pending => Pending
  | Fulfilled a => f a
  | Rejected e => Rejected e
  end.

(** [p.catch(f)]. *)
Definition catch_ {A} (p : Promise A) (f : Error -> Promise A) : Promise A :=
  match p with
  | Rejected e => f e
  | _ => p
  end.

Fixpoint first_rejection {A} (ps : list (Promise A)) : option Error :=
  match ps with
  | [] => None
  | Rejected e :: _ => Some e
  | _ :: ps => first_rejection ps
  end.

Fixpoint all_fulfilled {A} (ps : list (Promise A)) : option (list A) :=
  match ps with
  | [] => Some []
  | Fulfilled a :: ps =>
      match all_fulfilled ps with
      | Some l => Some (a :: l)
      | None => None
      end
  | _ :: _ => None
  end.

(** [Promise.all(ps)]: rejected as soon as one element is, fulfilled
    with the values in the order of [ps] once all elements are,
    pending otherwise. *)
Definition Promise_all {A} (ps : list (Promise A)) : Promise (list A) :=
  match first_rejection ps with
  | Some e => Rejected e
  | None =>
      match all_fulfilled ps with
      | Some l => Fulfilled l
      | None => Pending
      end
  end.

(** The [Response] of a [fetch]: its [ok] flag, its status code and
    what [response.json()] settles in (the parsed body, or the
    [SyntaxError] of the parser). *)
Record Response := mkResponse {
  ok : bool;
  status : nat;
  json : Promise value
}.

End JS.
Import JS.

(** ** The environment *)

(** What [fetch(url)] settles in, as a function of the time the request
    is issued at. *)
Definition World := nat -> string -> Promise Response.

(** What [import(path)] settles in: the data files are bundled with the
    application at build time. *)
Definition Bundle := string -> Promise value.

(** The network as the module sees it: a clock and the log of the
    requests issued so far. *)
Record Net := mkNet {
  clock : nat;
  requests : list string
}.

(** Code with network effects. *)
Definition IO (A : Type) : Type := Net -> A * Net.

Definition ret {A} (a : A) : IO A := fun n => (a, n).

Definition bind {A B} (m : IO A) (f : A -> IO B) : IO B :=
  fun n => let (a, n') := m n in f a n'.

Notation "x <- m ;; k" := (bind m (fun x => k))
  (at level 100, m at next level, right associativity).

Definition fetch (w : World) (url : string) : IO (Promise Response) :=
  fun n => (w (clock n) url, mkNet (clock n) (requests n ++ [url])).

(** ** [fetcher.tsx] *)

Definition errorMessage : string := "Failed to load data.".

(** [handleResponse]: the response in JSON, or a thrown [Error] with
    [errorMessage] if the request failed. *)
Definition handleResponse (response : Response) : Promise value :=
  if ok response then json response
  else Rejected (mkError "Error" errorMessage).

(** Default values for the respective state variables. *)
Module defaults.

Definition app : gmap string value :=
  <["error" := VBool false]>
    (<["apps" := VArr []]> (<["categories" := VArr []]> ∅)).

Definition bookmark : gmap string value :=
  <["error" := VBool false]> (<["groups" := VArr []]> ∅).

Definition search : gmap string value :=
  <["error" := VBool false]> (<["providers" := VArr []]> ∅).

Definition theme : gmap string value :=
  <["error" := VBool false]> (<["themes" := VArr []]> ∅).

Definition text_link : value :=
  VObj (<["link" := VStr ""]> (<["text" := VStr ""]> ∅)).

Definition imprint : gmap string value :=
  <["error" := VBool false]>
    (<["imprint" :=
         VObj (<["text" := VStr ""]>
              (<["url" := text_link]>
              (<["email" := text_link]>
              (<["phone" := text_link]>
              (<["address" := text_link]>
              (<["name" := text_link]> ∅))))))]> ∅).

End defaults.

(** [handleError]: the defaults of the request that threw, with the
    message of the error; [undefined] for an unknown request. *)
Definition handleError (status : string) (error : Error) : value :=
  if decide (status = "apps") then
    VObj (<["error" := VStr (message error)]> defaults.app)
  else if decide (status = "bookmark") then
    VObj (<["error" := VStr (message error)]> defaults.bookmark)
  else if decide (status = "searchProvider") then
    VObj (<["error" := VStr (message error)]> defaults.search)
  else if decide (status = "theme") then
    VObj (<["error" := VStr (message error)]> defaults.theme)
  else if decide (status = "imprint") then
    VObj (<["error" := VStr (message error)]> defaults.imprint)
  else VUndefined.

(** The two module-level constants: each is one promise, created when
    the module is evaluated. *)
Record fetcher_module := mkModule {
  fetchProduction : Promise (list value);
  fetchDevelopment : Promise (list value)
}.

(** The initialiser of [fetchProduction]: the five requests are issued,
    each with its own [then] and [catch], and joined by [Promise.all]. *)
Definition fetchProduction_init (w : World) : IO (Promise (list value)) :=
  apps <- fetch w "/data/apps.json" ;;
  bookmarks <- fetch w "/data/bookmarks.json" ;;
  search <- fetch w "/data/search.json" ;;
  themes <- fetch w "/data/themes.json" ;;
  imprint <- fetch w "/data/imprint.json" ;;
  ret (Promise_all [
    catch_ (then_ apps handleResponse)
      (fun error => Fulfilled (handleError "apps" error));
    catch_ (then_ bookmarks handleResponse)
      (fun error => Fulfilled (handleError "bookmark" error));
    catch_ (then_ search handleResponse)
      (fun error => Fulfilled (handleError "searchProvider" error));
    catch_ (then_ themes handleResponse)
      (fun error => Fulfilled (handleError "theme" error));
    catch_ (then_ imprint handleResponse)
      (fun error => Fulfilled (handleError "imprint" error))
  ]).

(** The initialiser of [fetchDevelopment]: the five imports, joined. *)
Definition fetchDevelopment_init (import_ : Bundle) : Promise (list value) :=
  Promise_all [
    import_ "../data/apps.json";
    import_ "../data/bookmarks.json";
    import_ "../data/search.json";
    import_ "../data/themes.json";
    import_ "../data/imprint.json"
  ].

(** Evaluating the module evaluates both initialisers, whatever the
    value of [inProduction]. *)
Definition load_module (w : World) (import_ : Bundle) : IO fetcher_module :=
  production <- fetchProduction_init w ;;
  ret (mkModule production (fetchDevelopment_init import_)).

(** The five state variables of [useFetcher]. *)
Record Slices := mkSlices {
  appData : value;
  bookmarkData : value;
  searchProviderData : value;
  themeData : value;
  imprintData : value
}.

(** Statements that update the state variables and may throw. *)
Definition Update (A : Type) : Type := Slices -> completion A * Slices.

Definition eval {A} (c : completion A) : Update A := fun s => (c, s).

Definition and_then {A B} (m : Update A) (f : A -> Update B) : Update B :=
  fun s =>
    match m s with
    | (Normal a, s') => f a s'
    | (Throw e, s') => (Throw e, s')
    end.

Notation "x <~ m ;; k" := (and_then m (fun x => k))
  (at level 100, m at next level, right associativity).

Definition setAppData (v : value) : Update unit :=
  fun s => (Normal tt,
            mkSlices v (bookmarkData s) (searchProviderData s) (themeData s) (imprintData s)).

Definition setBookmarkData (v : value) : Update unit :=
  fun s => (Normal tt,
            mkSlices (appData s) v (searchProviderData s) (themeData s) (imprintData s)).

Definition setSearchProviderData (v : value) : Update unit :=
  fun s => (Normal tt,
            mkSlices (appData s) (bookmarkData s) v (themeData s) (imprintData s)).

Definition setThemeData (v : value) : Update unit :=
  fun s => (Normal tt,
            mkSlices (appData s) (bookmarkData s) (searchProviderData s) v (imprintData s)).

Definition setImprintData (v : value) : Update unit :=
  fun s => (Normal tt,
            mkSlices (appData s) (bookmarkData s) (searchProviderData s) (themeData s) v).

(** [{ ...v, error: false }]. *)
Definition without_error (v : value) : value :=
  VObj (<["error" := VBool false]> (spread v)).

(** The function that [callback] passes to [then]: the five results are
    taken from the array by position and stored one after the other. *)
Definition callback_then (results : list value) : Update unit :=
  let appData := nth 0 results VUndefined in
  let bookmarkData := nth 1 results VUndefined in
  let searchData := nth 2 results VUndefined in
  let themeData := nth 3 results VUndefined in
  let imprintData := nth 4 results VUndefined in
  error <~ eval (get_error appData) ;;
  _ <~ (if truthy error then setAppData appData
        else setAppData (without_error appData)) ;;
  error <~ eval (get_error bookmarkData) ;;
  _ <~ (if truthy error then setBookmarkData bookmarkData
        else setBookmarkData (without_error bookmarkData)) ;;
  error <~ eval (get_error searchData) ;;
  _ <~ (if truthy error then setSearchProviderData searchData
        else setSearchProviderData (without_error searchData)) ;;
  error <~ eval (get_error themeData) ;;
  _ <~ (if truthy error then setThemeData themeData
        else setThemeData (without_error themeData)) ;;
  error <~ eval (get_error imprintData) ;;
  (if truthy error then setImprintData imprintData
   else setImprintData (without_error imprintData)).

(** ** The component that calls [useFetcher] *)

(** The build flag and the two sources of data. *)
Record Env := mkEnv {
  inProduction : bool;
  world : World;
  import_ : Bundle
}.

(** The running application: the network, the constants of the module,
    the cells of the three kinds of hooks of [useFetcher], the reactions
    queued on the promise with the value they will receive, and the
    errors that escape from [callback] with nobody to catch them: the
    rejection of each promise that it derives with [then] from a
    rejected aggregate, and what its reactions throw.  (The rejection of
    an aggregate of the module itself is reported by the browser apart
    from the component and is not in this list.) *)
Record App := mkApp {
  net : Net;
  consts : fetcher_module;
  state : option Slices;      (* useState: empty before the first render *)
  memo : option nat;          (* useCallback: the memoised function *)
  deps : option nat;          (* useEffect: the dependency of the last render *)
  renders : nat;
  effects : nat;              (* how often the effect has run *)
  jobs : list (list value);
  uncaught : list Error
}.

(** [useState(initial)]. *)
Definition useState (initial : value) (cell : option value) : value :=
  match cell with
  | Some v => v
  | None => initial
  end.

(** [useCallback(f, [])], where [f] is the function created by this
    render: the dependencies never change, the first function is kept. *)
Definition useCallback (f : nat) (cell : option nat) : nat :=
  match cell with
  | Some g => g
  | None => f
  end.

(** [useEffect(_, [dep])]: whether the effect runs after this render. *)
Definition useEffect (dep : nat) (cell : option nat) : bool :=
  match cell with
  | Some d => negb (Nat.eqb d dep)
  | None => true
  end.

(** [callback]: a reaction on the promise selected by [inProduction].
    A fulfilled promise queues the reaction with its value, a pending
    one never does, a rejected one has nobody to handle it. *)
Definition callback (env : Env) (a : App) : App :=
  match (if inProduction env then fetchProduction (consts a)
         else fetchDevelopment (consts a)) with
  | Fulfilled results =>
      mkApp (net a) (consts a) (state a) (memo a) (deps a) (renders a) (effects a)
            (jobs a ++ [results]) (uncaught a)
  | Pending => a
  | Rejected e =>
      mkApp (net a) (consts a) (state a) (memo a) (deps a) (renders a) (effects a)
            (jobs a) (uncaught a ++ [e])
  end.

(** One render of [useFetcher], followed by its effect if it is due. *)
Definition useFetcher (env : Env) (a : App) : App :=
  let appData := useState (VObj defaults.app) (appData <$> state a) in
  let bookmarkData := useState (VObj defaults.bookmark) (bookmarkData <$> state a) in
  let searchProviderData :=
    useState (VObj defaults.search) (searchProviderData <$> state a) in
  let themeData := useState (VObj defaults.theme) (themeData <$> state a) in
  let imprintData := useState (VObj defaults.imprint) (imprintData <$> state a) in
  let callback_ := useCallback (renders a) (memo a) in
  let due := useEffect callback_ (deps a) in
  let a' :=
    mkApp (net a) (consts a)
          (Some (mkSlices appData bookmarkData searchProviderData themeData imprintData))
          (Some callback_) (Some callback_) (S (renders a))
          (if due then S (effects a) else effects a) (jobs a) (uncaught a) in
  if due then callback env a' else a'.

(** What happens to the application. *)
Inductive Event :=
| Render       (* the component is rendered: first render, or any later one *)
| Refresh      (* a consumer calls the [callback] that the hook returned *)
| Job          (* the oldest queued reaction runs *)
| Tick.        (* time passes on the network *)

Definition run_job (a : App) : App :=
  match jobs a, state a with
  | results :: rest, Some s =>
      let (c, s') := callback_then results s in
      mkApp (net a) (consts a) (Some s') (memo a) (deps a) (renders a) (effects a) rest
            (match c with Normal _ => uncaught a | Throw e => uncaught a ++ [e] end)
  | _, _ => a
  end.

Definition step (env : Env) (a : App) (ev : Event) : App :=
  match ev with
  | Render => useFetcher env a
  | Refresh =>
      match memo a with
      | Some _ => callback env a
      | None => a
      end
  | Job => run_job a
  | Tick =>
      mkApp (mkNet (S (clock (net a))) (requests (net a))) (consts a) (state a) (memo a)
            (deps a) (renders a) (effects a) (jobs a) (uncaught a)
  end.

Definition run (env : Env) (evs : list Event) (a : App) : App :=
  foldl (step env) a evs.

(** The application once the module is evaluated and before the first
    render. *)
Definition boot (env : Env) : App :=
  let (m, n) := load_module (world env) (import_ env) (mkNet 0 []) in
  mkApp n m None None None 0 0 [] [].

(** ** Vocabulary of the properties *)

(** The five resource kinds, in the order of the array that
    [fetchProduction] is fulfilled with. *)
Inductive Kind := Apps | Bookmarks | SearchProviders | Themes | Imprint.

#[global] Instance Kind_eq_dec : EqDecision Kind.
Proof. solve_decision. Defined.

Definition kinds : list Kind := [Apps; Bookmarks; SearchProviders; Themes; Imprint].

Definition url (k : Kind) : string :=
  match k with
  | Apps => "/data/apps.json"
  | Bookmarks => "/data/bookmarks.json"
  | SearchProviders => "/data/search.json"
  | Themes => "/data/themes.json"
  | Imprint => "/data/imprint.json"
  end.

Definition path (k : Kind) : string :=
  match k with
  | Apps => "../data/apps.json"
  | Bookmarks => "../data/bookmarks.json"
  | SearchProviders => "../data/search.json"
  | Themes => "../data/themes.json"
  | Imprint => "../data/imprint.json"
  end.

(** The name under which [handleError] knows the kind. *)
Definition status_of (k : Kind) : string :=
  match k with
  | Apps => "apps"
  | Bookmarks => "bookmark"
  | SearchProviders => "searchProvider"
  | Themes => "theme"
  | Imprint => "imprint"
  end.

Definition position (k : Kind) : nat :=
  match k with
  | Apps => 0
  | Bookmarks => 1
  | SearchProviders => 2
  | Themes => 3
  | Imprint => 4
  end.

Definition default_of (k : Kind) : gmap string value :=
  match k with
  | Apps => defaults.app
  | Bookmarks => defaults.bookmark
  | SearchProviders => defaults.search
  | Themes => defaults.theme
  | Imprint => defaults.imprint
  end.

Definition slice (k : Kind) (s : Slices) : value :=
  match k with
  | Apps => appData s
  | Bookmarks => bookmarkData s
  | SearchProviders => searchProviderData s
  | Themes => themeData s
  | Imprint => imprintData s
  end.

(** One element of the array given to [Promise.all]: the request of a
    kind with its [then] and its [catch]. *)
Definition load_result (k : Kind) (p : Promise Response) : Promise value :=
  catch_ (then_ p handleResponse)
    (fun error => Fulfilled (handleError (status_of k) error)).

(** The promise that [callback] reacts on. *)
Definition selected (env : Env) (m : fetcher_module) : Promise (list value) :=
  if inProduction env then fetchProduction m else fetchDevelopment m.

(** The states of the application that some sequence of events leads to. *)
Definition reachable (env : Env) (a : App) : Prop :=
  exists evs, a = run env evs (boot env).

(** A property of one value: the value of a field of an object. *)
Definition field (name : string) (v : value) : option value :=
  match v with
  | VObj o => o !! name
  | _ => None
  end.

(** What one statement of [callback_then] stores for a result whose
    [error] can be read. *)
Definition stored (v : value) : value :=
  match get_error v with
  | Normal error => if truthy error then v else without_error v
  | Throw _ => v
  end.

(** ** Sample data *)

Module Samples.

Definition app_entry : value :=
  VObj (<["name" := VStr "Mail"]> (<["url" := VStr "https://mail.example"]> ∅)).

Definition apps_json : gmap string value :=
  <["apps" := VArr [app_entry]]> (<["categories" := VArr []]> ∅).

Definition bookmarks_json : gmap string value :=
  <["groups" := VArr [VObj (<["name" := VStr "News"]> ∅)]]> ∅.

Definition search_json : gmap string value :=
  <["providers" := VArr [VObj (<["prefix" := VStr "/g"]> ∅)]]> ∅.

Definition themes_json : gmap string value :=
  <["themes" := VArr [VObj (<["value" := VNum 0]> (<["label" := VStr "Classic"]> ∅))]]> ∅.

Definition imprint_json : gmap string value :=
  <["text" := VStr "Imprint"]> (<["name" := defaults.text_link]> ∅).

Definition body (k : Kind) : gmap string value :=
  match k with
  | Apps => apps_json
  | Bookmarks => bookmarks_json
  | SearchProviders => search_json
  | Themes => themes_json
  | Imprint => imprint_json
  end.

Definition kind_of_url (u : string) : option Kind :=
  if decide (u = "/data/apps.json") then Some Apps
  else if decide (u = "/data/bookmarks.json") then Some Bookmarks
  else if decide (u = "/data/search.json") then Some SearchProviders
  else if decide (u = "/data/themes.json") then Some Themes
  else if decide (u = "/data/imprint.json") then Some Imprint
  else None.

Definition not_found : Promise Response :=
  Fulfilled (mkResponse false 404 (Rejected (mkError "SyntaxError" "Unexpected token <"))).

Definition respond (v : value) : Promise Response :=
  Fulfilled (mkResponse true 200 (Fulfilled v)).

(** A server that answers every request with the sample data. *)
Definition healthy : World :=
  fun _ u =>
    match kind_of_url u with
    | Some k => respond (VObj (body k))
    | None => not_found
    end.

Definition healthy_results : list value :=
  [VObj apps_json; VObj bookmarks_json; VObj search_json; VObj themes_json;
   VObj imprint_json].

(** A server on which [/data/apps.json] answers with status 500. *)
Definition apps_500 : World :=
  fun t u =>
    if decide (u = "/data/apps.json")
    then Fulfilled (mkResponse false 500 (Fulfilled (VStr "Internal Server Error")))
    else healthy t u.

(** No network: every request is rejected by the browser. *)
Definition offline : World :=
  fun _ _ => Rejected (mkError "TypeError" "Failed to fetch").

(** A server on which [/data/themes.json] is not JSON. *)
Definition themes_malformed : World :=
  fun t u =>
    if decide (u = "/data/themes.json")
    then Fulfilled (mkResponse true 200
                      (Rejected (mkError "SyntaxError" "Unexpected end of JSON input")))
    else healthy t u.

(** A server whose [/data/bookmarks.json] has a field [error] of its own. *)
Definition bookmarks_with_error : gmap string value :=
  <["error" := VStr "maintenance"]> bookmarks_json.

Definition stray_error : World :=
  fun t u =>
    if decide (u = "/data/bookmarks.json") then respond (VObj bookmarks_with_error)
    else healthy t u.

(** The same, with [/data/apps.json] answering with status 500. *)
Definition apps_500_stray_error : World :=
  fun t u =>
    if decide (u = "/data/bookmarks.json") then respond (VObj bookmarks_with_error)
    else apps_500 t u.

Definition apps_500_results : list value :=
  [VObj (<["error" := VStr errorMessage]> defaults.app); VObj bookmarks_json;
   VObj search_json; VObj themes_json; VObj imprint_json].

Definition stray_error_results : list value :=
  [VObj apps_json; VObj bookmarks_with_error; VObj search_json; VObj themes_json;
   VObj imprint_json].

Definition offline_results : list value :=
  (fun k => VObj (<["error" := VStr "Failed to fetch"]> (default_of k))) <$> kinds.

Definition apps_500_stray_error_results : list value :=
  [VObj (<["error" := VStr errorMessage]> defaults.app); VObj bookmarks_with_error;
   VObj search_json; VObj themes_json; VObj imprint_json].

(** A server whose [/data/apps.json] changes after the first instant. *)
Definition apps_json_later : gmap string value :=
  <["apps" := VArr []]> (<["categories" := VArr []]> ∅).

Definition changing : World :=
  fun t u =>
    if decide (u = "/data/apps.json")
    then respond (VObj (if Nat.eqb t 0 then apps_json else apps_json_later))
    else healthy t u.

(** The bundle of the development build. *)
Definition bundle : Bundle :=
  fun p =>
    if decide (p = "../data/apps.json") then Fulfilled (VObj apps_json)
    else if decide (p = "../data/bookmarks.json") then Fulfilled (VObj bookmarks_json)
    else if decide (p = "../data/search.json") then Fulfilled (VObj search_json)
    else if decide (p = "../data/themes.json") then Fulfilled (VObj themes_json)
    else if decide (p = "../data/imprint.json") then Fulfilled (VObj imprint_json)
    else Rejected (mkError "Error" "Cannot find module").

Definition production (w : World) : Env := mkEnv true w bundle.

End Samples.

(** ** Notions used by the properties *)

(** The load of a resource fails with [cause] when the request with its
    [then] is rejected with [cause]: the request itself was rejected,
    [handleResponse] threw, or [response.json()] was rejected. *)
Definition fails (p : Promise Response) (cause : Error) : Prop :=
  then_ p handleResponse = Rejected cause.

(** The specification's reading of the error message policy: whatever
    the cause of the failure, the error string of the result is
    [errorMessage]. *)
Definition spec_fixed_error_message : Prop :=
  forall (w : World) (n : Net) (results : list value) (k : Kind) (cause : Error),
    (fetchProduction_init w n).1 = Fulfilled results ->
    fails (w (clock n) (url k)) cause ->
    field "error" (nth (position k) results VUndefined) = Some (VStr errorMessage).

(** A server on which three kinds fail, each in its own way. *)
Definition three_failures : World :=
  fun t u =>
    if decide (u = "/data/apps.json")
    then Fulfilled (mkResponse false 500 (Fulfilled (VStr "Internal Server Error")))
    else if decide (u = "/data/bookmarks.json")
    then Rejected (mkError "TypeError" "Failed to fetch")
    else Samples.themes_malformed t u.

Definition three_failures_results : list value :=
  [ VObj (<["error" := VStr "Failed to load data."]> defaults.app);
    VObj (<["error" := VStr "Failed to fetch"]> defaults.bookmark);
    VObj Samples.search_json;
    VObj (<["error" := VStr "Unexpected end of JSON input"]> defaults.theme);
    VObj Samples.imprint_json ].

(** What every reachable state satisfies: the constants are those of
    the evaluation of the module, every queued reaction carries the
    value of the selected promise, the hooks are initialised together,
    the effect has run once the component is rendered, and the requests
    are those of the evaluation of the module. *)
Record wf (env : Env) (a : App) : Prop := mkWf {
  wf_consts : consts a = consts (boot env);
  wf_jobs : Forall (fun r => selected env (consts a) = Fulfilled r) (jobs a);
  wf_unmounted :
    state a = None -> memo a = None /\ deps a = None /\ jobs a = [] /\ effects a = 0;
  wf_mounted :
    forall s, state a = Some s ->
      exists f, memo a = Some f /\ deps a = Some f /\ effects a = 1;
  wf_requests : requests (net a) = url <$> kinds
}.

(** The state variables after the first render. *)
Definition initial : Slices :=
  mkSlices (VObj defaults.app) (VObj defaults.bookmark) (VObj defaults.search)
           (VObj defaults.theme) (VObj defaults.imprint).

(** A refresh cycle completes after the events [evs] when the component
    is rendered, a reaction is queued, and the reaction runs: [s'] are
    the state variables it leaves. *)
Definition cycle_completes (env : Env) (evs : list Event) (s' : Slices) : Prop :=
  is_Some (state (run env evs (boot env)))
  /\ jobs (run env evs (boot env)) ≠ []
  /\ state (run env (evs ++ [Job]) (boot env)) = Some s'.

(** The specification's reading: whatever the outcomes of the five
    loads, the slice of a resource whose load did not fail carries
    [error = false] after the cycle. *)
Definition spec_non_failing_error_false : Prop :=
  forall (env : Env) (k : Kind) (v : value) (s' : Slices),
    inProduction env = true ->
    then_ (world env 0 (url k)) handleResponse = Fulfilled v ->
    cycle_completes env [Render] s' ->
    field "error" (slice k s') = Some (VBool false).

(** What the load of a kind settles in before any [catch]: the parsed
    body of the response in production, the imported data otherwise. *)
Definition payload (env : Env) (k : Kind) : Promise value :=
  if inProduction env then then_ (world env 0 (url k)) handleResponse
  else import_ env (path k).

(** The specification's reading: the [error: false] of the store wins
    over a truthy field [error] of the payload. *)
Definition spec_error_precedence : Prop :=
  forall (env : Env) (k : Kind) (o : gmap string value) (e : value) (s' : Slices),
    payload env k = Fulfilled (VObj o) ->
    o !! "error" = Some e -> truthy e = true ->
    cycle_completes env [Render] s' ->
    field "error" (slice k s') = Some (VBool false).

(** The specification's reading of the scenario: the apps slice is the
    defaults with the fixed message, and each of the other four slices
    is its parsed payload with [error = false]. *)
Definition spec_scenario_apps_500 : Prop :=
  forall (env : Env) (body : Promise value) (parsed : Kind -> value) (s' : Slices),
    inProduction env = true ->
    world env 0 "/data/apps.json" = Fulfilled (mkResponse false 500 body) ->
    (forall k, k ≠ Apps -> payload env k = Fulfilled (parsed k)) ->
    cycle_completes env [Render] s' ->
    appData s'
    = VObj (<["error" := VStr "Failed to load data."]>
              (<["apps" := VArr []]> (<["categories" := VArr []]> ∅)))
    /\ forall k, k ≠ Apps ->
         slice k s' = without_error (parsed k)
         /\ field "error" (slice k s') = Some (VBool false).

(** The specification's reading: when all five loads fail, each slice
    is its default with the fixed message as [error]. *)
Definition spec_all_fail_fixed_message : Prop :=
  forall (env : Env) (cause : Kind -> Error) (s' : Slices),
    inProduction env = true ->
    (forall k, fails (world env 0 (url k)) (cause k)) ->
    cycle_completes env [Render] s' ->
    forall k, slice k s' = VObj (<["error" := VStr errorMessage]> (default_of k)).

(** The two states of the specification: a slice with [error = false],
    or the defaults of the kind with a message as [error]. *)
Definition two_states (k : Kind) (v : value) : Prop :=
  (exists o, v = VObj o /\ o !! "error" = Some (VBool false))
  \/ (exists m, m ≠ "" /\ v = VObj (<["error" := VStr m]> (default_of k))).

(** The specification's reading of the invariant: at every observable
    point each slice is in one of the two states. *)
Definition spec_two_states : Prop :=
  forall (env : Env) (a : App) (s : Slices) (k : Kind),
    reachable env a -> state a = Some s -> two_states k (slice k s).

(** The specification's reading of the refresh operation: each call of
    [callback] derives the five slices from a fresh execution of the
    five requests, issued when it is called. *)
Definition spec_fresh_refresh : Prop :=
  forall (env : Env) (evs : list Event) (s : Slices) (fresh : list value),
    inProduction env = true ->
    state (run env evs (boot env)) = Some s ->
    jobs (run env evs (boot env)) = [] ->
    (fetchProduction_init (world env) (net (run env evs (boot env)))).1 = Fulfilled fresh ->
    state (run env (evs ++ [Refresh; Job]) (boot env))
    = Some (callback_then fresh s).2.

Definition changing_later_results : list value :=
  [VObj Samples.apps_json_later; VObj Samples.bookmarks_json; VObj Samples.search_json;
   VObj Samples.themes_json; VObj Samples.imprint_json].

(** ** Further notions *)

(** The state variables once a reaction has run to its end on
    [results]: every slice holds what its statement stores. *)
Definition settled (results : list value) : Slices :=
  mkSlices (stored (nth 0 results VUndefined)) (stored (nth 1 results VUndefined))
           (stored (nth 2 results VUndefined)) (stored (nth 3 results VUndefined))
           (stored (nth 4 results VUndefined)).

(** The [error] of every one of the five results can be read. *)
Definition readable (results : list value) : Prop :=
  forall k, exists e, get_error (nth (position k) results VUndefined) = Normal e.

(** Two applications show the same to the component: the cells of the
    hooks, the queued reactions and the uncaught errors agree. *)
Record same_view (a a' : App) : Prop := mkSameView {
  sv_state : state a = state a';
  sv_memo : memo a = memo a';
  sv_deps : deps a = deps a';
  sv_renders : renders a = renders a';
  sv_effects : effects a = effects a';
  sv_jobs : jobs a = jobs a';
  sv_uncaught : uncaught a = uncaught a'
}.

(** A server on which [/data/themes.json] never answers. *)
Definition themes_hung : World :=
  fun t u => if decide (u = "/data/themes.json") then Pending else Samples.healthy t u.

(** A bundle in which the data of the imprint is missing. *)
Definition imprint_missing : Bundle :=
  fun p =>
    if decide (p = "../data/imprint.json")
    then Rejected (mkError "Error" "Cannot find module '../data/imprint.json'")
    else Samples.bundle p.

(** Results in which the body of the bookmarks is the JSON [null]. *)
Definition bookmarks_null_results : list value :=
  [VObj Samples.apps_json; VNull; VObj Samples.search_json; VObj Samples.themes_json;
   VObj Samples.imprint_json].

(** A server whose [/data/search.json] is the JSON number 42. *)
Definition search_number : World :=
  fun t u =>
    if decide (u = "/data/search.json") then Samples.respond (VNum 42)
    else Samples.healthy t u.

Definition search_number_results : list value :=
  [VObj Samples.apps_json; VObj Samples.bookmarks_json; VNum 42;
   VObj Samples.themes_json; VObj Samples.imprint_json].

(** A server on which the request for the apps is rejected with an
    error that has no message. *)
Definition apps_silent_failure : World :=
  fun t u =>
    if decide (u = "/data/apps.json") then Rejected (mkError "Error" "")
    else Samples.healthy t u.

Definition apps_silent_failure_results : list value :=
  [VObj (<["error" := VStr ""]> defaults.app); VObj Samples.bookmarks_json;
   VObj Samples.search_json; VObj Samples.themes_json; VObj Samples.imprint_json].

(** A server whose [/data/bookmarks.json] is the JSON [null]. *)
Definition bookmarks_null : World :=
  fun t u =>
    if decide (u = "/data/bookmarks.json") then Samples.respond VNull
    else Samples.healthy t u.

(** The specification's reading of the store: once the aggregate is
    fulfilled, the slice of every kind receives the result at the
    position of that kind. *)
Definition spec_positions_written : Prop :=
  forall (env : Env) (results : list value) (s' : Slices),
    inProduction env = true ->
    selected env (consts (boot env)) = Fulfilled results ->
    cycle_completes env [Render] s' ->
    forall k, slice k s' = stored (nth (position k) results VUndefined).

(** What the request of a kind puts into the aggregate of production
    once it has settled: the parsed body, or the defaults of the kind
    with the message of the error that the load failed with. *)
Definition result_of (env : Env) (k : Kind) : value :=
  match then_ (world env 0 (url k)) handleResponse with
  | Fulfilled v => v
  | Rejected cause => VObj (<["error" := VStr (message cause)]> (default_of k))
  | Pending => VUndefined
  end.

(** The [error] of the results of the kinds before [k] can be read:
    the reaction reaches the statement of [k]. *)
Definition reaches (results : list value) (k : Kind) : Prop :=
  forall k', position k' < position k ->
    exists e, get_error (nth (position k') results VUndefined) = Normal e.

(** The two states of a slice, with what the slice holds in each: with
    [error = false], the default value of the kind or the payload that
    was loaded for the kind; or the default value of the kind with the
    message of the error that its load failed with. *)
Definition slice_state (env : Env) (k : Kind) (v : value) : Prop :=
  ((v = VObj (default_of k)
    \/ exists p, payload env k = Fulfilled p /\ v = without_error p)
   /\ field "error" v = Some (VBool false))
  \/ (exists cause,
        inProduction env = true
        /\ fails (world env 0 (url k)) cause
        /\ message cause ≠ ""
        /\ v = VObj (<["error" := VStr (message cause)]> (default_of k))).

(** The number of calls of [callback] in a sequence of events: the one
    of the effect of the first render, and one for each [Refresh] of a
    component that is rendered. *)
Fixpoint callback_calls (mounted : bool) (evs : list Event) : nat :=
  match evs with
  | [] => 0
  | Render :: evs => (if mounted then 0 else 1) + callback_calls true evs
  | Refresh :: evs => (if mounted then 1 else 0) + callback_calls mounted evs
  | _ :: evs => callback_calls mounted evs
  end.

(** ** The settings ([components/settings.tsx]) *)

Module settings.

(** A theme, as the select of the settings lists it. *)
Record IThemeProps := mkTheme {
  label : string;
  value : Z;
  mainColor : string;
  accentColor : string;
  backgroundColor : string
}.

(** The calls that the handlers of the settings make outside of the
    component: [setTheme(mode, theme)] and [window.location.reload()]. *)
Inductive Call :=
| setTheme (mode : string) (theme : IThemeProps)
| reload.

(** The two state variables of [Settings]; [useState()] starts them
    as [undefined]. *)
Record Hooks := mkHooks {
  newLightTheme : option IThemeProps;
  newDarkTheme : option IThemeProps
}.

(** What [Settings] returns: the empty fragment, or the modal with the
    two selects, the themes they offer and the theme each one shows as
    current, and the two buttons. *)
Inductive Element :=
| Fragment
| Modal (light : list IThemeProps) (currentLightTheme : string)
        (dark : list IThemeProps) (currentDarkTheme : string).

(** [Settings]: the current themes are read first, the modal is
    returned when [themes] is given.  An array is truthy even when it
    is empty; only [undefined] is not given. *)
Definition Settings (getTheme : string -> IThemeProps)
    (themes : option (list IThemeProps)) : Element :=
  let currentLightTheme := label (getTheme "light") in
  let currentDarkTheme := label (getTheme "dark") in
  match themes with
  | Some themes => Modal themes currentLightTheme themes currentDarkTheme
  | None => Fragment
  end.

(** The page on which the settings are shown: the state variables of
    the component and the calls made so far. *)
Record Page := mkPage {
  hooks : Hooks;
  calls : list Call
}.

(** What the user does with the modal.  A select reports the theme
    that was chosen, or [undefined] when it has no such item. *)
Inductive UserEvent :=
| ChangeLight (theme : option IThemeProps)
| ChangeDark (theme : option IThemeProps)
| ClickSubmit
| ClickRefresh.

(** [onChange] of the two selects. *)
Definition setNewLightTheme (theme : option IThemeProps) (p : Page) : Page :=
  mkPage (mkHooks theme (newDarkTheme (hooks p))) (calls p).

Definition setNewDarkTheme (theme : option IThemeProps) (p : Page) : Page :=
  mkPage (mkHooks (newLightTheme (hooks p)) theme) (calls p).

(** [onClick] of the button "Apply". *)
Definition submit (p : Page) : Page :=
  let p1 :=
    match newLightTheme (hooks p) with
    | Some theme => mkPage (hooks p) (calls p ++ [setTheme "light" theme])
    | None => p
    end in
  match newDarkTheme (hooks p1) with
  | Some theme => mkPage (hooks p1) (calls p1 ++ [setTheme "dark" theme])
  | None => p1
  end.

(** [onClick] of the button "Refresh": the call is recorded; the page
    that the browser loads next is not part of the component. *)
Definition refresh (p : Page) : Page :=
  mkPage (hooks p) (calls p ++ [reload]).

(** One event: the handlers exist only in the modal. *)
Definition handle (getTheme : string -> IThemeProps)
    (themes : option (list IThemeProps)) (p : Page) (ev : UserEvent) : Page :=
  match Settings getTheme themes with
  | Fragment => p
  | Modal _ _ _ _ =>
      match ev with
      | ChangeLight theme => setNewLightTheme theme p
      | ChangeDark theme => setNewDarkTheme theme p
      | ClickSubmit => submit p
      | ClickRefresh => refresh p
      end
  end.

Definition mount : Page := mkPage (mkHooks None None) [].

Definition play (getTheme : string -> IThemeProps)
    (themes : option (list IThemeProps)) (evs : list UserEvent) (p : Page) : Page :=
  foldl (handle getTheme themes) p evs.

(** The theme that the light select reported last, if it reported any. *)
Fixpoint last_light (evs : list UserEvent) (before : option IThemeProps)
    : option IThemeProps :=
  match evs with
  | [] => before
  | ChangeLight theme :: evs => last_light evs theme
  | _ :: evs => last_light evs before
  end.

Fixpoint last_dark (evs : list UserEvent) (before : option IThemeProps)
    : option IThemeProps :=
  match evs with
  | [] => before
  | ChangeDark theme :: evs => last_dark evs theme
  | _ :: evs => last_dark evs before
  end.

(** The calls of one click on "Apply" with the given selections. *)
Definition applied (light dark : option IThemeProps) : list Call :=
  match light with Some theme => [setTheme "light" theme] | None => [] end
  ++ match dark with Some theme => [setTheme "dark" theme] | None => [] end.

(** The number of clicks on "Refresh". *)
Fixpoint refresh_clicks (evs : list UserEvent) : nat :=
  match evs with
  | [] => 0
  | ClickRefresh :: evs => S (refresh_clicks evs)
  | _ :: evs => refresh_clicks evs
  end.

Definition is_selection (ev : UserEvent) : Prop :=
  match ev with ChangeLight _ | ChangeDark _ => True | _ => False end.

(** The themes of the tests. *)
Definition classic (v : Z) : IThemeProps :=
  mkTheme "Classic" v "#000000" "#1e272e" "#ffffff".

Definition themes : list IThemeProps := [classic 0; classic 1].

Definition getTheme_classic (mode : string) : IThemeProps := classic 0.

End settings.

(** ** Promises and the aggregate load *)

Section Promises.

Context {A : Type}.
Implicit Types (ps : list (Promise A)) (l : list A).

Lemma all_fulfilled_Forall2 ps l :
  all_fulfilled ps = Some l <-> Forall2 (fun p a => p = Fulfilled a) ps l.
Proof.
  revert l. induction ps as [|p ps IH]; intros l; simpl.
  - split.
    + intros [= <-]. constructor.
    + intros H. by inversion H.
  - split.
    + destruct p as [|a|e]; try discriminate.
      destruct (all_fulfilled ps) as [l'|] eqn:E; intros [= <-].
      constructor; [done | by apply IH].
    + intros H. inversion H as [|? b ? l' Hp Hps]; subst.
      apply IH in Hps. by rewrite Hps.
Qed.

Lemma all_fulfilled_no_rejection ps l :
  all_fulfilled ps = Some l -> first_rejection ps = None.
Proof.
  revert l. induction ps as [|p ps IH]; intros l; simpl; [done|].
  destruct p as [|a|e]; try discriminate.
  destruct (all_fulfilled ps) eqn:E; [|discriminate]. intros _. by eapply IH.
Qed.

Lemma Promise_all_Fulfilled ps l :
  Promise_all ps = Fulfilled l <-> Forall2 (fun p a => p = Fulfilled a) ps l.
Proof.
  rewrite <- all_fulfilled_Forall2. unfold Promise_all. split.
  - destruct (first_rejection ps); [discriminate|].
    destruct (all_fulfilled ps); [|discriminate]. by intros [= ->].
  - intros H. by rewrite (all_fulfilled_no_rejection _ _ H), H.
Qed.

Lemma first_rejection_Some ps e :
  first_rejection ps = Some e -> Rejected e ∈ ps.
Proof.
  induction ps as [|p ps IH]; simpl; [discriminate|].
  destruct p as [|a|e']; try (intros H; right; by apply IH).
  intros [= ->]. left.
Qed.

Lemma Promise_all_Rejected ps e :
  Promise_all ps = Rejected e -> Rejected e ∈ ps.
Proof.
  unfold Promise_all. destruct (first_rejection ps) as [e'|] eqn:E.
  - intros [= ->]. by apply first_rejection_Some.
  - destruct (all_fulfilled ps); discriminate.
Qed.

End Promises.

(** A request with its [catch] settles in a value or not at all. *)
Lemma load_result_not_Rejected k p e : load_result k p ≠ Rejected e.
Proof.
  unfold load_result, then_, catch_, handleResponse.
  destruct p as [|r|e']; try discriminate.
  destruct (ok r); [|discriminate].
  destruct (json r); discriminate.
Qed.

(** The requests of [fetchProduction], as an array indexed by the kinds. *)
Lemma fetchProduction_init_value w n :
  (fetchProduction_init w n).1
  = Promise_all ((fun k => load_result k (w (clock n) (url k))) <$> kinds).
Proof. reflexivity. Qed.

Lemma fetchProduction_init_net w n :
  (fetchProduction_init w n).2 = mkNet (clock n) (requests n ++ (url <$> kinds)).
Proof.
  unfold fetchProduction_init, bind, fetch, ret; simpl.
  by rewrite <- !app_assoc.
Qed.

Lemma lookup_nth {A} (l : list A) (i : nat) (d : A) :
  i < length l -> l !! i = Some (nth i l d).
Proof.
  intros H. destruct (lookup_lt_is_Some_2 l i H) as [x Hx].
  rewrite Hx. f_equal. symmetry. by apply nth_lookup_Some.
Qed.

Lemma position_lt k : position k < 5.
Proof. destruct k; simpl; lia. Qed.

Lemma kinds_lookup k : kinds !! position k = Some k.
Proof. by destruct k. Qed.

(** Once [fetchProduction] is fulfilled, the element at the position of
    a kind is what the request of that kind settled in. *)
Lemma fetchProduction_positions w n results :
  (fetchProduction_init w n).1 = Fulfilled results ->
  length results = 5 /\
  forall k, load_result k (w (clock n) (url k))
            = Fulfilled (nth (position k) results VUndefined).
Proof.
  rewrite fetchProduction_init_value, Promise_all_Fulfilled. intros H.
  pose proof (Forall2_length _ _ _ H) as Hlen. simpl in Hlen. split; [done|].
  intros k.
  destruct (Forall2_lookup_l _ _ _ (position k) (load_result k (w (clock n) (url k))) H)
    as (v & Hv & ->).
  { rewrite list_lookup_fmap, kinds_lookup. done. }
  f_equal. symmetry. by apply nth_lookup_Some with (d := VUndefined) in Hv.
Qed.

(** ** [handleError] *)

(** C10.  [handleError] is a partial mapping over its [status]: for each
    of the five names it knows, it returns the defaults of that kind
    with [error] set to the message of the given error; for every other
    string it returns [undefined], no result at all. *)
Theorem handleError_partial_mapping (error : Error) :
  handleError "apps" error
    = VObj (<["error" := VStr (message error)]> defaults.app)
  /\ handleError "bookmark" error
    = VObj (<["error" := VStr (message error)]> defaults.bookmark)
  /\ handleError "searchProvider" error
    = VObj (<["error" := VStr (message error)]> defaults.search)
  /\ handleError "theme" error
    = VObj (<["error" := VStr (message error)]> defaults.theme)
  /\ handleError "imprint" error
    = VObj (<["error" := VStr (message error)]> defaults.imprint)
  /\ forall status : string,
      status ∉ ["apps"; "bookmark"; "searchProvider"; "theme"; "imprint"] ->
      handleError status error = VUndefined.
Proof.
  repeat split; try reflexivity.
  intros status Hstatus. unfold handleError.
  repeat case_decide; try reflexivity; subst; exfalso; apply Hstatus; set_solver.
Qed.

Lemma handleError_partial_mapping_witness :
  ("themes" ∉ ["apps"; "bookmark"; "searchProvider"; "theme"; "imprint"])
  /\ handleError "themes" (mkError "TypeError" "Failed to fetch") = VUndefined.
Proof.
  assert (H : "themes" ∉ ["apps"; "bookmark"; "searchProvider"; "theme"; "imprint"]).
  { apply (bool_decide_unpack _). vm_compute. exact I. }
  split; [exact H|].
  apply (handleError_partial_mapping (mkError "TypeError" "Failed to fetch")), H.
Defined.

Lemma handleError_kind k error :
  handleError (status_of k) error
  = VObj (<["error" := VStr (message error)]> (default_of k)).
Proof. by destruct k. Qed.

(** ** The error string of a failed load *)

(** C2, as stated, does not hold: without network the browser rejects
    the request with its own [TypeError], and the error string of the
    result is the message of that error. *)
Lemma fixed_error_message_counterexample : ~ spec_fixed_error_message.
Proof.
  intros H.
  specialize (H Samples.offline (mkNet 0 []) Samples.offline_results
                Apps (mkError "TypeError" "Failed to fetch") eq_refl eq_refl).
  vm_compute in H. discriminate H.
Qed.

(** C2, amended.  For every resource kind, the error string of the
    result of a failed load is the message of the error that the load
    failed with: the fixed message "Failed to load data." when the
    response has a non-success status, and the message of the underlying
    cause when the request is rejected (network failure) or the body
    cannot be parsed. *)
Theorem error_string_of_failure
    (w : World) (n : Net) (results : list value) (k : Kind) :
  (fetchProduction_init w n).1 = Fulfilled results ->
  (forall st body,
      w (clock n) (url k) = Fulfilled (mkResponse false st body) ->
      results !! position k
      = Some (VObj (<["error" := VStr errorMessage]> (default_of k))))
  /\ (forall cause,
      w (clock n) (url k) = Rejected cause ->
      results !! position k
      = Some (VObj (<["error" := VStr (message cause)]> (default_of k))))
  /\ (forall st cause,
      w (clock n) (url k) = Fulfilled (mkResponse true st (Rejected cause)) ->
      results !! position k
      = Some (VObj (<["error" := VStr (message cause)]> (default_of k)))).
Proof.
  intros H. destruct (fetchProduction_positions _ _ _ H) as [Hlen Hpos].
  specialize (Hpos k).
  assert (Hnth : results !! position k = Some (nth (position k) results VUndefined)).
  { apply lookup_nth. rewrite Hlen. apply position_lt. }
  rewrite Hnth. repeat split.
  - intros st body Hw. rewrite Hw in Hpos. cbn in Hpos.
    rewrite handleError_kind in Hpos. by injection Hpos as <-.
  - intros cause Hw. rewrite Hw in Hpos. cbn in Hpos.
    rewrite handleError_kind in Hpos. by injection Hpos as <-.
  - intros st cause Hw. rewrite Hw in Hpos. cbn in Hpos.
    rewrite handleError_kind in Hpos. by injection Hpos as <-.
Qed.

Lemma error_string_of_failure_witness :
  (fetchProduction_init three_failures (mkNet 0 [])).1 = Fulfilled three_failures_results
  /\ three_failures_results !! 0
     = Some (VObj (<["error" := VStr "Failed to load data."]> defaults.app))
  /\ three_failures_results !! 1
     = Some (VObj (<["error" := VStr "Failed to fetch"]> defaults.bookmark))
  /\ three_failures_results !! 3
     = Some (VObj (<["error" := VStr "Unexpected end of JSON input"]> defaults.theme)).
Proof.
  assert (H : (fetchProduction_init three_failures (mkNet 0 [])).1
              = Fulfilled three_failures_results) by reflexivity.
  split; [exact H|]. split; [|split].
  - exact (proj1 (error_string_of_failure _ _ _ Apps H) 500
             (Fulfilled (VStr "Internal Server Error")) eq_refl).
  - exact (proj1 (proj2 (error_string_of_failure _ _ _ Bookmarks H))
             (mkError "TypeError" "Failed to fetch") eq_refl).
  - exact (proj2 (proj2 (error_string_of_failure _ _ _ Themes H)) 200
             (mkError "SyntaxError" "Unexpected end of JSON input") eq_refl).
Defined.

(** ** The function passed to [then] *)

(** When the [error] of each of the five results can be read, the five
    statements run to the end and each slice receives the result at the
    position of its kind. *)
Lemma callback_then_normal results s :
  (forall k, exists e, get_error (nth (position k) results VUndefined) = Normal e) ->
  callback_then results s
  = (Normal tt,
     mkSlices (stored (nth 0 results VUndefined)) (stored (nth 1 results VUndefined))
              (stored (nth 2 results VUndefined)) (stored (nth 3 results VUndefined))
              (stored (nth 4 results VUndefined))).
Proof.
  intros H.
  destruct (H Apps) as [e0 H0], (H Bookmarks) as [e1 H1],
    (H SearchProviders) as [e2 H2], (H Themes) as [e3 H3], (H Imprint) as [e4 H4].
  simpl in H0, H1, H2, H3, H4.
  unfold callback_then, and_then, eval, stored.
  rewrite H0, H1, H2, H3, H4.
  destruct (truthy e0), (truthy e1), (truthy e2), (truthy e3), (truthy e4); reflexivity.
Qed.

Lemma get_error_object o : exists e, get_error (VObj o) = Normal e.
Proof. by eexists. Qed.

(** ** The running application *)

Lemma boot_consts env :
  consts (boot env)
  = mkModule (fetchProduction_init (world env) (mkNet 0 [])).1
             (fetchDevelopment_init (import_ env)).
Proof. reflexivity. Qed.

Lemma wf_boot env : wf env (boot env).
Proof. split; done. Qed.

Lemma wf_callback env a : wf env a -> is_Some (state a) -> wf env (callback env a).
Proof.
  intros [Hc Hj Hu Hm Hr] [s Hs]. unfold callback.
  destruct (if inProduction env then _ else _) as [|results|e] eqn:E.
  - by split.
  - split; simpl; try done.
    + apply Forall_app. split; [done|]. by constructor.
    + by rewrite Hs.
  - split; simpl; try done.
Qed.

Lemma useFetcher_first env a :
  state a = None -> memo a = None -> deps a = None ->
  useFetcher env a
  = callback env
      (mkApp (net a) (consts a)
         (Some (mkSlices (VObj defaults.app) (VObj defaults.bookmark)
                  (VObj defaults.search) (VObj defaults.theme) (VObj defaults.imprint)))
         (Some (renders a)) (Some (renders a)) (S (renders a)) (S (effects a))
         (jobs a) (uncaught a)).
Proof. intros Hs Hm Hd. unfold useFetcher. by rewrite Hs, Hm, Hd. Qed.

Lemma useFetcher_again env a s f :
  state a = Some s -> memo a = Some f -> deps a = Some f ->
  useFetcher env a
  = mkApp (net a) (consts a) (Some s) (Some f) (Some f) (S (renders a)) (effects a)
          (jobs a) (uncaught a).
Proof.
  intros Hs Hm Hd. unfold useFetcher. rewrite Hs, Hm, Hd. simpl.
  rewrite Nat.eqb_refl. simpl. by destruct s.
Qed.

Lemma wf_useFetcher env a : wf env a -> wf env (useFetcher env a).
Proof.
  intros Hwf. destruct (state a) as [s|] eqn:Hs.
  - destruct (wf_mounted _ _ Hwf s Hs) as (f & Hm & Hd & He).
    rewrite (useFetcher_again _ _ _ _ Hs Hm Hd).
    destruct Hwf as [Hc Hj Hu Hmo Hr]. split; simpl; try done.
    intros s' _. by exists f.
  - destruct (wf_unmounted _ _ Hwf Hs) as (Hm & Hd & Hj & He).
    rewrite (useFetcher_first _ _ Hs Hm Hd).
    apply wf_callback; [|by eexists].
    destruct Hwf as [Hc Hjs Hu Hmo Hr]. split; simpl; try done.
    intros s' _. exists (renders a). by rewrite He.
Qed.

Lemma wf_run_job env a : wf env a -> wf env (run_job a).
Proof.
  intros Hwf. unfold run_job.
  destruct (jobs a) as [|results rest] eqn:Ejobs; [done|].
  destruct (state a) as [s|] eqn:Es; [|done].
  destruct (callback_then results s) as [c s'].
  destruct Hwf as [Hc Hj Hu Hm Hr]. split; simpl; try done.
  - rewrite Ejobs in Hj. by inversion Hj.
  - intros s'' _. by apply (Hm s).
Qed.

Lemma wf_step env a ev : wf env a -> wf env (step env a ev).
Proof.
  intros Hwf. destruct ev; simpl.
  - by apply wf_useFetcher.
  - destruct (memo a) as [f|] eqn:Em; [|done].
    apply wf_callback; [done|].
    destruct (state a) as [s|] eqn:Es; [by eexists|].
    destruct (wf_unmounted _ _ Hwf Es) as [Hm _]. congruence.
  - by apply wf_run_job.
  - by destruct Hwf.
Qed.

Lemma wf_run env evs a : wf env a -> wf env (run env evs a).
Proof.
  revert a. induction evs as [|ev evs IH]; intros a Hwf; [done|].
  simpl. apply IH. by apply wf_step.
Qed.

Lemma run_app env evs evs' a :
  run env (evs ++ evs') a = run env evs' (run env evs a).
Proof. apply foldl_app. Qed.

Lemma first_render env :
  state (run env [Render] (boot env)) = Some initial
  /\ effects (run env [Render] (boot env)) = 1
  /\ jobs (run env [Render] (boot env))
     = match selected env (consts (boot env)) with
       | Fulfilled results => [results]
       | _ => []
       end.
Proof.
  simpl. rewrite useFetcher_first by done. unfold callback, selected. simpl.
  destruct (if inProduction env then _ else _); done.
Qed.

(** A queued reaction always carries the value of the selected promise
    of the module; when it runs, it updates the state variables. *)
Lemma job_state env a s results :
  wf env a -> selected env (consts (boot env)) = Fulfilled results ->
  state a = Some s -> jobs a ≠ [] ->
  state (run_job a) = Some (callback_then results s).2.
Proof.
  intros Hwf Hsel Hs Hjobs. unfold run_job.
  destruct (jobs a) as [|r rest] eqn:Ejobs; [done|]. rewrite Hs.
  pose proof (wf_jobs _ _ Hwf) as Hj. rewrite Ejobs in Hj.
  inversion Hj as [|? ? Hr _]; subst.
  rewrite (wf_consts _ _ Hwf), Hsel in Hr. injection Hr as <-.
  by destruct (callback_then results s).
Qed.

Lemma callback_state env a : state (callback env a) = state a.
Proof. unfold callback. by destruct (if inProduction env then _ else _). Qed.

Lemma callback_jobs env a results :
  selected env (consts a) = Fulfilled results ->
  jobs (callback env a) = jobs a ++ [results].
Proof. unfold callback, selected. by intros ->. Qed.

(** One refresh cycle: [callback] is called and its reaction runs. *)
Lemma refresh_cycle env a s results :
  wf env a -> selected env (consts (boot env)) = Fulfilled results ->
  state a = Some s ->
  state (run env [Refresh; Job] a) = Some (callback_then results s).2.
Proof.
  intros Hwf Hsel Hs. simpl.
  destruct (wf_mounted _ _ Hwf s Hs) as (f & Hm & _). rewrite Hm.
  apply (job_state env); [apply wf_callback; eauto | done | by rewrite callback_state |].
  rewrite (callback_jobs _ _ results) by by rewrite (wf_consts _ _ Hwf).
  by destruct (jobs a).
Qed.

(** The first cycle is the one of the effect. *)
Lemma first_cycle env results :
  selected env (consts (boot env)) = Fulfilled results ->
  state (run env [Render; Job] (boot env)) = Some (callback_then results initial).2.
Proof.
  intros Hsel. change [Render; Job] with ([Render] ++ [Job]). rewrite run_app.
  destruct (first_render env) as (Hs & _ & Hj). rewrite Hsel in Hj.
  apply (job_state env); [apply wf_run, wf_boot | done | done | by rewrite Hj].
Qed.

(** Each statement of the reaction either stores the result at its
    position or was not reached. *)
Lemma callback_then_slice results s k :
  slice k (callback_then results s).2 = slice k s
  \/ (exists e, get_error (nth (position k) results VUndefined) = Normal e)
     /\ slice k (callback_then results s).2 = stored (nth (position k) results VUndefined).
Proof.
  unfold callback_then, and_then, eval, stored.
  destruct (get_error (nth 0 results VUndefined)) as [e0|] eqn:E0;
    [|left; by destruct k].
  destruct (get_error (nth 1 results VUndefined)) as [e1|] eqn:E1;
    [|destruct k; simpl; rewrite ?E0; destruct (truthy e0); eauto].
  destruct (get_error (nth 2 results VUndefined)) as [e2|] eqn:E2;
    [|destruct k; simpl; rewrite ?E0, ?E1; destruct (truthy e0), (truthy e1); eauto].
  destruct (get_error (nth 3 results VUndefined)) as [e3|] eqn:E3;
    [|destruct k; simpl; rewrite ?E0, ?E1, ?E2;
      destruct (truthy e0), (truthy e1), (truthy e2); eauto].
  destruct (get_error (nth 4 results VUndefined)) as [e4|] eqn:E4;
    [|destruct k; simpl; rewrite ?E0, ?E1, ?E2, ?E3;
      destruct (truthy e0), (truthy e1), (truthy e2), (truthy e3); eauto].
  right. destruct k; simpl; rewrite ?E0, ?E1, ?E2, ?E3, ?E4;
    destruct (truthy e0), (truthy e1), (truthy e2), (truthy e3), (truthy e4); eauto.
Qed.

Lemma cycle_completes_inv env evs s' results :
  selected env (consts (boot env)) = Fulfilled results ->
  cycle_completes env evs s' ->
  exists s, state (run env evs (boot env)) = Some s
            /\ s' = (callback_then results s).2.
Proof.
  intros Hsel ([s Hs] & Hjobs & Hs'). exists s. split; [done|].
  rewrite run_app in Hs'. simpl in Hs'.
  rewrite (job_state env _ s results) in Hs'; try done; [congruence|].
  apply wf_run, wf_boot.
Qed.

Lemma cycle_completes_first env results :
  selected env (consts (boot env)) = Fulfilled results ->
  cycle_completes env [Render] (callback_then results initial).2.
Proof.
  intros Hsel. destruct (first_render env) as (Hs & _ & Hj). rewrite Hsel in Hj.
  repeat split.
  - by rewrite Hs.
  - by rewrite Hj.
  - by apply first_cycle.
Qed.

Lemma cycle_objects results s :
  (forall k, exists o, nth (position k) results VUndefined = VObj o) ->
  forall k, slice k (callback_then results s).2
            = stored (nth (position k) results VUndefined).
Proof.
  intros Hobj k. rewrite callback_then_normal; [by destruct k|].
  intros k'. destruct (Hobj k') as [o ->]. apply get_error_object.
Qed.

Lemma stored_object o :
  stored (VObj o)
  = if truthy (default VUndefined (o !! "error")) then VObj o
    else VObj (<["error" := VBool false]> o).
Proof. reflexivity. Qed.

Lemma production_position env results k :
  inProduction env = true ->
  selected env (consts (boot env)) = Fulfilled results ->
  load_result k (world env 0 (url k)) = Fulfilled (nth (position k) results VUndefined).
Proof.
  unfold selected. intros -> H.
  exact (proj2 (fetchProduction_positions (world env) (mkNet 0 []) results H) k).
Qed.

Lemma load_result_fails k p cause :
  fails p cause ->
  load_result k p = Fulfilled (VObj (<["error" := VStr (message cause)]> (default_of k))).
Proof. unfold fails, load_result. intros ->. simpl. by rewrite handleError_kind. Qed.

Lemma load_result_succeeds k p v :
  then_ p handleResponse = Fulfilled v -> load_result k p = Fulfilled v.
Proof. unfold load_result. by intros ->. Qed.

Lemma production_not_Rejected env e :
  inProduction env = true -> selected env (consts (boot env)) ≠ Rejected e.
Proof.
  unfold selected. intros -> H.
  assert (Hin : (fetchProduction_init (world env) (mkNet 0 [])).1 = Rejected e) by exact H.
  rewrite fetchProduction_init_value in Hin. apply Promise_all_Rejected in Hin.
  apply list_elem_of_fmap in Hin as (k & Hk & _). symmetry in Hk.
  by apply load_result_not_Rejected in Hk.
Qed.

(** ** Isolation of failures *)

(** C3, as stated, does not hold: when [/data/apps.json] fails and the
    body of [/data/bookmarks.json] has a truthy field [error] of its
    own, the slice of the bookmarks, whose load did not fail, carries
    that [error] and not [false]. *)
Lemma failure_isolation_counterexample : ~ spec_non_failing_error_false.
Proof.
  intros H.
  pose proof (cycle_completes_first (Samples.production Samples.apps_500_stray_error)
                Samples.apps_500_stray_error_results eq_refl) as Hcycle.
  specialize (H (Samples.production Samples.apps_500_stray_error) Bookmarks
                (VObj Samples.bookmarks_with_error) _ eq_refl eq_refl Hcycle).
  vm_compute in H. discriminate H.
Qed.

(** C3, amended.  For every combination of outcomes of the five loads,
    the failure of one load is caught locally and converted to the
    defaults of that kind with [error] set to the message of the
    failure, for that resource only; the aggregate promise is never
    rejected; and, when every body that parses is a JSON object, the
    slice of every resource whose load did not fail is unaffected by
    the failures: it is its own payload, with [error = false] unless the
    payload has a truthy field [error] of its own, in which case the
    payload is stored as it is. *)
Theorem failure_isolation (env : Env) :
  inProduction env = true ->
  (forall e, selected env (consts (boot env)) ≠ Rejected e)
  /\ forall results,
      selected env (consts (boot env)) = Fulfilled results ->
      (forall k cause,
          fails (world env 0 (url k)) cause ->
          nth (position k) results VUndefined
          = VObj (<["error" := VStr (message cause)]> (default_of k)))
      /\ ((forall k, exists o, nth (position k) results VUndefined = VObj o) ->
          forall evs s' k o,
            cycle_completes env evs s' ->
            then_ (world env 0 (url k)) handleResponse = Fulfilled (VObj o) ->
            slice k s'
            = if truthy (default VUndefined (o !! "error")) then VObj o
              else VObj (<["error" := VBool false]> o)).
Proof.
  intros Hprod. split; [intros e; by apply production_not_Rejected|].
  intros results Hsel. split.
  - intros k cause Hfails.
    pose proof (production_position env results k Hprod Hsel) as Hpos.
    rewrite (load_result_fails _ _ _ Hfails) in Hpos. by injection Hpos as <-.
  - intros Hobj evs s' k o Hcycle Hok.
    destruct (cycle_completes_inv _ _ _ _ Hsel Hcycle) as (s & _ & ->).
    rewrite cycle_objects by done.
    pose proof (production_position env results k Hprod Hsel) as Hpos.
    rewrite (load_result_succeeds _ _ _ Hok) in Hpos. injection Hpos as <-.
    apply stored_object.
Qed.

Lemma failure_isolation_witness :
  inProduction (Samples.production Samples.apps_500) = true
  /\ selected (Samples.production Samples.apps_500)
       (consts (boot (Samples.production Samples.apps_500)))
     = Fulfilled Samples.apps_500_results
  /\ nth 0 Samples.apps_500_results VUndefined
     = VObj (<["error" := VStr "Failed to load data."]> defaults.app)
  /\ slice Bookmarks (callback_then Samples.apps_500_results initial).2
     = VObj (<["error" := VBool false]> Samples.bookmarks_json).
Proof.
  destruct (failure_isolation (Samples.production Samples.apps_500) eq_refl) as [_ H].
  destruct (H Samples.apps_500_results eq_refl) as [Hfail Hok].
  split; [reflexivity|]. split; [reflexivity|]. split.
  - exact (Hfail Apps (mkError "Error" errorMessage) eq_refl).
  - assert (Hobj : forall k, exists o,
               nth (position k) Samples.apps_500_results VUndefined = VObj o).
    { intros []; by eexists. }
    exact (Hok Hobj [Render] _ Bookmarks Samples.bookmarks_json
             (cycle_completes_first (Samples.production Samples.apps_500)
                Samples.apps_500_results eq_refl) eq_refl).
Defined.

(** ** Precedence of the error field *)

Lemma fetchDevelopment_positions imp results :
  fetchDevelopment_init imp = Fulfilled results ->
  length results = 5 /\
  forall k, imp (path k) = Fulfilled (nth (position k) results VUndefined).
Proof.
  change (fetchDevelopment_init imp) with (Promise_all ((fun k => imp (path k)) <$> kinds)).
  rewrite Promise_all_Fulfilled. intros H.
  pose proof (Forall2_length _ _ _ H) as Hlen. simpl in Hlen. split; [done|].
  intros k.
  destruct (Forall2_lookup_l _ _ _ (position k) (imp (path k)) H) as (v & Hv & ->).
  { rewrite list_lookup_fmap, kinds_lookup. done. }
  f_equal. symmetry. by apply nth_lookup_Some with (d := VUndefined) in Hv.
Qed.

(** A load that succeeds puts its payload at the position of its kind. *)
Lemma payload_position env results k v :
  selected env (consts (boot env)) = Fulfilled results ->
  payload env k = Fulfilled v ->
  nth (position k) results VUndefined = v.
Proof.
  unfold selected, payload. destruct (inProduction env) eqn:Hprod; intros H Hv.
  - pose proof (proj2 (fetchProduction_positions (world env) (mkNet 0 []) results H) k)
      as Hpos.
    rewrite (load_result_succeeds _ _ _ Hv) in Hpos. by injection Hpos.
  - pose proof (proj2 (fetchDevelopment_positions (import_ env) results H) k) as Hpos.
    rewrite Hv in Hpos. by injection Hpos.
Qed.

(** C4, as stated, does not hold: a payload with a truthy field [error]
    takes the first branch of the conditional and is stored as it is,
    the stray [error] included. *)
Lemma error_precedence_counterexample : ~ spec_error_precedence.
Proof.
  intros H.
  pose proof (cycle_completes_first (Samples.production Samples.stray_error)
                Samples.stray_error_results eq_refl) as Hcycle.
  specialize (H (Samples.production Samples.stray_error) Bookmarks
                Samples.bookmarks_with_error (VStr "maintenance") _
                eq_refl eq_refl eq_refl Hcycle).
  vm_compute in H. discriminate H.
Qed.

(** When the reaction reaches the statement of a kind and the [error]
    of its result can be read, the slice of the kind receives the
    result, whatever the later results are. *)
Lemma callback_then_reaches results s k :
  reaches results k ->
  (exists e, get_error (nth (position k) results VUndefined) = Normal e) ->
  slice k (callback_then results s).2 = stored (nth (position k) results VUndefined).
Proof.
  intros Hbefore Hk.
  assert (H0 : 0 <= position k ->
               exists e', get_error (nth 0 results VUndefined) = Normal e').
  { intros H. destruct k; try exact (Hbefore Apps ltac:(simpl; lia)). exact Hk. }
  assert (H1 : 1 <= position k ->
               exists e', get_error (nth 1 results VUndefined) = Normal e').
  { intros H. destruct k; try exact (Hbefore Bookmarks ltac:(simpl; lia));
      first [exact Hk | simpl in H; lia]. }
  assert (H2 : 2 <= position k ->
               exists e', get_error (nth 2 results VUndefined) = Normal e').
  { intros H. destruct k; try exact (Hbefore SearchProviders ltac:(simpl; lia));
      first [exact Hk | simpl in H; lia]. }
  assert (H3 : 3 <= position k ->
               exists e', get_error (nth 3 results VUndefined) = Normal e').
  { intros H. destruct k; try exact (Hbefore Themes ltac:(simpl; lia));
      first [exact Hk | simpl in H; lia]. }
  clear Hbefore.
  unfold callback_then, and_then, eval, stored; destruct k; simpl in *;
    repeat match goal with
      | H : _ <= _ -> exists _, _ |- _ =>
          first [ destruct H as [? H]; [lia|] | clear H ]
      end;
    destruct Hk as [? Hk];
    repeat match goal with
      | E : get_error _ = _ |- _ => rewrite E; clear E
      end;
    repeat match goal with
      | |- context [get_error ?x] => destruct (get_error x)
      end;
    repeat match goal with
      | |- context [truthy ?x] => destruct (truthy x)
      end;
    reflexivity.
Qed.

Lemma cycle_reaches env results evs s' k :
  selected env (consts (boot env)) = Fulfilled results ->
  cycle_completes env evs s' ->
  reaches results k ->
  (exists e, get_error (nth (position k) results VUndefined) = Normal e) ->
  slice k s' = stored (nth (position k) results VUndefined).
Proof.
  intros Hsel Hcycle Hbefore Hk.
  destruct (cycle_completes_inv _ _ _ _ Hsel Hcycle) as (s & _ & ->).
  by apply callback_then_reaches.
Qed.

(** C4, amended.  For every successful load whose parsed payload is an
    object with a field named [error], in a cycle in which the [error]
    of the results of the kinds stored before it can be read (none of
    them is the JSON [null], so that the reaction reaches this slice):
    when the value of the field is falsy, the slice written by the
    store is the payload with [error] equal to [false]; when it is
    truthy, the slice is the payload as it is and its [error] is the
    value of the payload. *)
Theorem error_field_precedence
    (env : Env) (results : list value) (evs : list Event) (s' : Slices)
    (k : Kind) (o : gmap string value) (e : value) :
  selected env (consts (boot env)) = Fulfilled results ->
  reaches results k ->
  payload env k = Fulfilled (VObj o) ->
  o !! "error" = Some e ->
  cycle_completes env evs s' ->
  (truthy e = false ->
     slice k s' = VObj (<["error" := VBool false]> o)
     /\ field "error" (slice k s') = Some (VBool false))
  /\ (truthy e = true ->
     slice k s' = VObj o /\ field "error" (slice k s') = Some e).
Proof.
  intros Hsel Hbefore Hok He Hcycle.
  pose proof (payload_position _ _ _ _ Hsel Hok) as Hpos.
  rewrite (cycle_reaches env results evs s' k Hsel Hcycle Hbefore)
    by (rewrite Hpos; apply get_error_object).
  rewrite Hpos, stored_object, He. simpl.
  split; intros ->; (split; [done|]); simpl; [apply lookup_insert_eq | done].
Qed.

Lemma error_field_precedence_witness :
  slice Bookmarks (callback_then Samples.stray_error_results initial).2
  = VObj Samples.bookmarks_with_error
  /\ field "error" (slice Bookmarks (callback_then Samples.stray_error_results initial).2)
     = Some (VStr "maintenance").
Proof.
  assert (Hbefore : reaches Samples.stray_error_results Bookmarks).
  { intros [] H; simpl in H; try lia. by eexists. }
  exact (proj2 (error_field_precedence (Samples.production Samples.stray_error)
                  Samples.stray_error_results [Render] _ Bookmarks
                  Samples.bookmarks_with_error (VStr "maintenance")
                  eq_refl Hbefore eq_refl eq_refl
                  (cycle_completes_first (Samples.production Samples.stray_error)
                     Samples.stray_error_results eq_refl))
           eq_refl).
Defined.

(** ** Scenario: [/data/apps.json] answers with status 500 *)

(** C8, as stated, does not hold: a body of [/data/bookmarks.json] that
    loads successfully and has a truthy field [error] of its own is
    stored with that [error]. *)
Lemma scenario_apps_500_counterexample : ~ spec_scenario_apps_500.
Proof.
  intros H.
  pose proof (cycle_completes_first (Samples.production Samples.apps_500_stray_error)
                Samples.apps_500_stray_error_results eq_refl) as Hcycle.
  specialize (H (Samples.production Samples.apps_500_stray_error)
                (Fulfilled (VStr "Internal Server Error"))
                (fun k => nth (position k) Samples.apps_500_stray_error_results VUndefined)
                (callback_then Samples.apps_500_stray_error_results initial).2
                eq_refl eq_refl).
  destruct H as [_ H]; [|exact Hcycle|].
  { intros []; done. }
  destruct (H Bookmarks) as [_ Herr]; [done|].
  vm_compute in Herr. discriminate Herr.
Qed.

(** C8, amended.  If the request for [/data/apps.json] returns status
    500 while the other four resources load successfully, each with a
    JSON object that has no truthy field [error] of its own, then after
    the refresh cycle [appData] equals
    [{categories: [], apps: [], error: "Failed to load data."}] and the
    other four slices hold their parsed payloads with [error = false]. *)
Theorem scenario_apps_500
    (env : Env) (body : Promise value) (parsed : Kind -> gmap string value)
    (evs : list Event) (s' : Slices) :
  inProduction env = true ->
  world env 0 "/data/apps.json" = Fulfilled (mkResponse false 500 body) ->
  (forall k, k ≠ Apps ->
     payload env k = Fulfilled (VObj (parsed k))
     /\ truthy (default VUndefined (parsed k !! "error")) = false) ->
  cycle_completes env evs s' ->
  appData s'
  = VObj (<["error" := VStr "Failed to load data."]>
            (<["apps" := VArr []]> (<["categories" := VArr []]> ∅)))
  /\ forall k, k ≠ Apps ->
       slice k s' = VObj (<["error" := VBool false]> (parsed k))
       /\ field "error" (slice k s') = Some (VBool false).
Proof.
  intros Hprod Happs Hothers Hcycle.
  assert (Hjobs : exists results, selected env (consts (boot env)) = Fulfilled results).
  { destruct Hcycle as (_ & Hjobs & _).
    pose proof (wf_jobs env _ (wf_run env evs _ (wf_boot env))) as Hj.
    destruct (jobs (run env evs (boot env))) as [|r rest]; [done|].
    inversion Hj as [|? ? Hr _]; subst. exists r.
    by rewrite <- (wf_consts env _ (wf_run env evs _ (wf_boot env))). }
  destruct Hjobs as [results Hsel].
  assert (H0 : nth 0 results VUndefined
               = VObj (<["error" := VStr errorMessage]> defaults.app)).
  { pose proof (production_position env results Apps Hprod Hsel) as Hpos.
    simpl in Hpos. rewrite Happs in Hpos. by injection Hpos. }
  assert (Hk : forall k, k ≠ Apps -> nth (position k) results VUndefined = VObj (parsed k)).
  { intros k Hne. apply (payload_position env); [done|]. by apply Hothers. }
  assert (Hobj : forall k, exists o, nth (position k) results VUndefined = VObj o).
  { intros k. destruct (decide (k = Apps)) as [->|Hne]; [by eexists|].
    rewrite Hk by done. by eexists. }
  destruct (cycle_completes_inv _ _ _ _ Hsel Hcycle) as (s & _ & ->).
  split.
  - change (appData ?x) with (slice Apps x). rewrite cycle_objects by done.
    simpl. rewrite H0. reflexivity.
  - intros k Hne. rewrite cycle_objects by done. rewrite Hk by done.
    rewrite stored_object. destruct (Hothers k Hne) as [_ ->].
    split; [done|]. simpl. apply lookup_insert_eq.
Qed.

Lemma scenario_apps_500_witness :
  world (Samples.production Samples.apps_500) 0 "/data/apps.json"
  = Fulfilled (mkResponse false 500 (Fulfilled (VStr "Internal Server Error")))
  /\ appData (callback_then Samples.apps_500_results initial).2
     = VObj (<["error" := VStr "Failed to load data."]>
               (<["apps" := VArr []]> (<["categories" := VArr []]> ∅)))
  /\ slice Themes (callback_then Samples.apps_500_results initial).2
     = VObj (<["error" := VBool false]> Samples.themes_json).
Proof.
  assert (Hothers : forall k, k ≠ Apps ->
            payload (Samples.production Samples.apps_500) k
            = Fulfilled (VObj (Samples.body k))
            /\ truthy (default VUndefined (Samples.body k !! "error")) = false).
  { intros [] Hne; try (split; reflexivity). by destruct Hne. }
  destruct (scenario_apps_500 (Samples.production Samples.apps_500)
              (Fulfilled (VStr "Internal Server Error")) Samples.body [Render]
              (callback_then Samples.apps_500_results initial).2
              eq_refl eq_refl Hothers
              (cycle_completes_first (Samples.production Samples.apps_500)
                 Samples.apps_500_results eq_refl)) as [Happs Hrest].
  split; [reflexivity|]. split; [exact Happs|].
  refine (proj1 (Hrest Themes _)). discriminate.
Defined.

(** ** All five loads fail *)

(** C9, as stated, does not hold: without network all five loads fail
    and each slice carries the message of the browser's own error. *)
Lemma all_fail_counterexample : ~ spec_all_fail_fixed_message.
Proof.
  intros H.
  pose proof (cycle_completes_first (Samples.production Samples.offline)
                Samples.offline_results eq_refl) as Hcycle.
  specialize (H (Samples.production Samples.offline)
                (fun _ => mkError "TypeError" "Failed to fetch")
                (callback_then Samples.offline_results initial).2
                eq_refl (fun k => eq_refl) Hcycle Apps).
  apply (f_equal (field "error")) in H. vm_compute in H. discriminate H.
Qed.

Lemma production_all_settled env (r : Kind -> value) :
  inProduction env = true ->
  (forall k, load_result k (world env 0 (url k)) = Fulfilled (r k)) ->
  selected env (consts (boot env)) = Fulfilled (r <$> kinds).
Proof.
  unfold selected. intros -> H.
  change (fetchProduction (consts (boot env)))
    with (fetchProduction_init (world env) (mkNet 0 [])).1.
  rewrite fetchProduction_init_value. apply Promise_all_Fulfilled.
  rewrite Forall2_fmap. apply Forall_Forall2_diag, Forall_forall. intros k _. apply H.
Qed.

Lemma truthy_message m : m ≠ "" -> truthy (VStr m) = true.
Proof. simpl. intros H. by destruct (String.eqb_spec m ""). Qed.

(** C9, amended.  If all five resources fail in a refresh cycle, the
    resulting five-slice state is equal to the initial default state,
    except that the error field of each slice is the message of the
    error its load failed with instead of [false]: the fixed message
    "Failed to load data." when the response has a non-success status,
    the message of the underlying cause otherwise. *)
Theorem all_fail_defaults_with_message
    (env : Env) (cause : Kind -> Error) (evs : list Event) (s' : Slices) :
  inProduction env = true ->
  (forall k, fails (world env 0 (url k)) (cause k)) ->
  (forall k, message (cause k) ≠ "") ->
  cycle_completes env evs s' ->
  forall k,
    slice k initial = VObj (default_of k)
    /\ default_of k !! "error" = Some (VBool false)
    /\ slice k s' = VObj (<["error" := VStr (message (cause k))]> (default_of k))
    /\ (forall st body,
          world env 0 (url k) = Fulfilled (mkResponse false st body) ->
          message (cause k) = errorMessage).
Proof.
  intros Hprod Hfail Hmsg Hcycle k.
  split; [by destruct k|]. split; [by destruct k|]. split.
  - pose proof (production_all_settled env
                  (fun k => VObj (<["error" := VStr (message (cause k))]> (default_of k)))
                  Hprod (fun k => load_result_fails k _ _ (Hfail k))) as Hsel.
    destruct (cycle_completes_inv _ _ _ _ Hsel Hcycle) as (s & _ & ->).
    rewrite cycle_objects by (intros []; by eexists).
    replace (nth (position k) _ VUndefined)
      with (VObj (<["error" := VStr (message (cause k))]> (default_of k)))
      by by destruct k.
    rewrite stored_object, lookup_insert_eq. simpl default.
    by rewrite truthy_message.
  - intros st body Hw. specialize (Hfail k). unfold fails in Hfail.
    rewrite Hw in Hfail. simpl in Hfail. by injection Hfail as <-.
Qed.

Lemma all_fail_defaults_with_message_witness :
  slice Imprint initial = VObj defaults.imprint
  /\ slice Imprint (callback_then Samples.offline_results initial).2
     = VObj (<["error" := VStr "Failed to fetch"]> defaults.imprint).
Proof.
  destruct (all_fail_defaults_with_message (Samples.production Samples.offline)
              (fun _ => mkError "TypeError" "Failed to fetch") [Render]
              (callback_then Samples.offline_results initial).2
              eq_refl (fun k => eq_refl)
              (fun k (H : "Failed to fetch" = "") => eq_ind "Failed to fetch"
                 (fun s => match s with EmptyString => False | String _ _ => True end)
                 I "" H)
              (cycle_completes_first (Samples.production Samples.offline)
                 Samples.offline_results eq_refl) Imprint)
    as (Hinit & _ & Hslice & _).
  split; [exact Hinit | exact Hslice].
Defined.

(** ** The two states of a slice *)

(** C5, as stated, does not hold: a payload that loads successfully and
    has a truthy field [error] of its own is stored as it is, which is a
    payload that is not the default paired with a truthy [error]. *)
Lemma two_states_counterexample : ~ spec_two_states.
Proof.
  intros H.
  specialize (H (Samples.production Samples.stray_error)
                (run (Samples.production Samples.stray_error) [Render; Job]
                   (boot (Samples.production Samples.stray_error)))
                (callback_then Samples.stray_error_results initial).2 Bookmarks
                (ex_intro _ [Render; Job] eq_refl)
                (first_cycle (Samples.production Samples.stray_error)
                   Samples.stray_error_results eq_refl)).
  change (slice Bookmarks _) with (VObj Samples.bookmarks_with_error) in H.
  destruct H as [(o & Ho & Herr) | (m & _ & Hm)].
  - injection Ho as <-. vm_compute in Herr. discriminate Herr.
  - apply (f_equal (field "groups")) in Hm. simpl field in Hm.
    rewrite lookup_insert_ne in Hm by done. vm_compute in Hm. discriminate Hm.
Qed.

(** A result is the payload of a load that succeeded, or the result
    of [handleError] for a load that failed. *)
Lemma results_position_cases env results k :
  selected env (consts (boot env)) = Fulfilled results ->
  payload env k = Fulfilled (nth (position k) results VUndefined)
  \/ exists cause,
      inProduction env = true
      /\ fails (world env 0 (url k)) cause
      /\ nth (position k) results VUndefined
         = VObj (<["error" := VStr (message cause)]> (default_of k)).
Proof.
  unfold selected, payload, fails. destruct (inProduction env); intros H.
  - pose proof (proj2 (fetchProduction_positions (world env) (mkNet 0 []) results H) k)
      as Hpos. simpl in Hpos. unfold load_result in Hpos.
    destruct (then_ (world env 0 (url k)) handleResponse) as [|v|cause]; simpl in Hpos.
    + discriminate.
    + left. done.
    + right. exists cause. rewrite handleError_kind in Hpos. by injection Hpos.
  - left. exact (proj2 (fetchDevelopment_positions (import_ env) results H) k).
Qed.

Lemma slice_state_initial env k : slice_state env k (slice k initial).
Proof. left. split; [left|]; by destruct k. Qed.

Lemma slice_state_loaded env k p :
  payload env k = Fulfilled p -> slice_state env k (without_error p).
Proof.
  intros Hp. left. split; [right; by exists p|]. simpl. apply lookup_insert_eq.
Qed.

Lemma default_error_false k :
  <["error" := VBool false]> (<["error" := VStr ""]> (default_of k)) = default_of k.
Proof.
  rewrite insert_insert_eq. apply insert_id. by destruct k.
Qed.

Lemma slice_state_failure env k cause :
  inProduction env = true ->
  fails (world env 0 (url k)) cause ->
  slice_state env k (stored (VObj (<["error" := VStr (message cause)]> (default_of k)))).
Proof.
  intros Hprod Hfail. rewrite stored_object, lookup_insert_eq. simpl default.
  destruct (decide (message cause = "")) as [Hm|Hm].
  - rewrite Hm. simpl. rewrite default_error_false.
    left. split; [left|]; by destruct k.
  - rewrite truthy_message by done. right. by exists cause.
Qed.

Lemma slice_state_two_states env k v : slice_state env k v -> two_states k v.
Proof.
  intros [[[->|(p & _ & ->)] Herr]|(cause & _ & _ & Hm & ->)].
  - left. by exists (default_of k).
  - left. by eexists.
  - right. by exists (message cause).
Qed.

Section TwoStates.

Variable env : Env.

(** No payload has a truthy field [error] of its own. *)
Hypothesis no_stray_error :
  forall k v e, payload env k = Fulfilled v -> get_error v = Normal e -> truthy e = false.

Lemma slice_state_stored results k e :
  selected env (consts (boot env)) = Fulfilled results ->
  get_error (nth (position k) results VUndefined) = Normal e ->
  slice_state env k (stored (nth (position k) results VUndefined)).
Proof.
  intros Hsel He.
  destruct (results_position_cases env results k Hsel) as [Hp|(cause & Hprod & Hf & Hc)].
  - unfold stored. rewrite He, (no_stray_error _ _ _ Hp He).
    by apply slice_state_loaded.
  - rewrite Hc. by apply slice_state_failure.
Qed.

Lemma all_slice_states_step a ev :
  wf env a ->
  (forall s, state a = Some s -> forall k, slice_state env k (slice k s)) ->
  forall s, state (step env a ev) = Some s -> forall k, slice_state env k (slice k s).
Proof.
  intros Hwf Hinv. destruct ev; simpl.
  - destruct (state a) as [s|] eqn:Hs.
    + destruct (wf_mounted _ _ Hwf s Hs) as (f & Hm & Hd & _).
      rewrite (useFetcher_again _ _ _ _ Hs Hm Hd). intros s' [= <-]. by apply Hinv.
    + destruct (wf_unmounted _ _ Hwf Hs) as (Hm & Hd & _).
      rewrite (useFetcher_first _ _ Hs Hm Hd). intros s'.
      rewrite callback_state. simpl. intros [= <-] k. apply slice_state_initial.
  - destruct (memo a); [|exact Hinv]. intros s. rewrite callback_state. apply Hinv.
  - unfold run_job. destruct (jobs a) as [|results rest] eqn:Ejobs; [exact Hinv|].
    destruct (state a) as [s|] eqn:Hs; [|by rewrite Hs].
    assert (Hsel : selected env (consts (boot env)) = Fulfilled results).
    { pose proof (wf_jobs _ _ Hwf) as Hj. rewrite Ejobs in Hj.
      inversion Hj as [|? ? Hr _]; subst. by rewrite <- (wf_consts _ _ Hwf). }
    pose proof (callback_then_slice results s) as Hslices.
    destruct (callback_then results s) as [c s']. simpl in Hslices.
    intros s'' [= <-] k. destruct (Hslices k) as [-> | [[e He] ->]].
    + by apply Hinv.
    + by apply (slice_state_stored _ _ e).
  - exact Hinv.
Qed.

Lemma all_slice_states_run evs a :
  wf env a ->
  (forall s, state a = Some s -> forall k, slice_state env k (slice k s)) ->
  forall s, state (run env evs a) = Some s -> forall k, slice_state env k (slice k s).
Proof.
  revert a. induction evs as [|ev evs IH]; intros a Hwf Hinv; [done|].
  simpl. apply IH; [by apply wf_step | by apply all_slice_states_step].
Qed.

End TwoStates.

(** C5, amended.  When no payload has a truthy field [error] of its
    own, then at every observable point (after initialisation and after
    each completed refresh cycle) each of the five slices is in exactly
    one of two states.  Either its [error] is [false] and it is the
    default value of its kind (before the first load, or after a
    failure whose message is empty) or the payload that was loaded for
    its kind with [error] set to [false], stored as it was parsed,
    whatever its shape; or it is the default value of its kind with, as
    [error], the non-empty message of the error that the load of its
    kind failed with. *)
Theorem two_states_invariant (env : Env) :
  (forall k v e,
      payload env k = Fulfilled v -> get_error v = Normal e -> truthy e = false) ->
  forall (a : App) (s : Slices) (k : Kind),
    reachable env a -> state a = Some s ->
    slice_state env k (slice k s) /\ two_states k (slice k s).
Proof.
  intros Hclean a s k [evs ->] Hs.
  assert (H : slice_state env k (slice k s)).
  { by apply (all_slice_states_run env Hclean evs (boot env) (wf_boot env)). }
  split; [done|]. by apply (slice_state_two_states env).
Qed.

Lemma two_states_invariant_witness :
  slice_state (Samples.production Samples.apps_500) Apps
    (VObj (<["error" := VStr "Failed to load data."]> defaults.app))
  /\ slice_state (Samples.production Samples.apps_500) Themes
       (VObj (<["error" := VBool false]> Samples.themes_json)).
Proof.
  assert (Hclean : forall k v e,
            payload (Samples.production Samples.apps_500) k = Fulfilled v ->
            get_error v = Normal e -> truthy e = false).
  { intros [] v e Hp He; vm_compute in Hp; try discriminate Hp;
      injection Hp as <-; vm_compute in He; injection He as <-; reflexivity. }
  pose proof (two_states_invariant (Samples.production Samples.apps_500) Hclean
                (run (Samples.production Samples.apps_500) [Render; Job]
                   (boot (Samples.production Samples.apps_500)))
                (callback_then Samples.apps_500_results initial).2) as H.
  split.
  - exact (proj1 (H Apps (ex_intro _ [Render; Job] eq_refl)
                    (first_cycle (Samples.production Samples.apps_500)
                       Samples.apps_500_results eq_refl))).
  - exact (proj1 (H Themes (ex_intro _ [Render; Job] eq_refl)
                    (first_cycle (Samples.production Samples.apps_500)
                       Samples.apps_500_results eq_refl))).
Defined.

(** ** The order of the results *)

(** C7, as stated, does not hold: when the body of
    [/data/bookmarks.json] is the JSON [null], the aggregate is
    fulfilled with five results, the reaction throws when it reads the
    [error] of the second one, and the results at the positions of the
    themes and of the imprint are never written into their slices. *)
Lemma results_in_fixed_order_counterexample : ~ spec_positions_written.
Proof.
  intros H.
  pose proof (cycle_completes_first (Samples.production bookmarks_null)
                bookmarks_null_results eq_refl) as Hcycle.
  specialize (H (Samples.production bookmarks_null) bookmarks_null_results
                (callback_then bookmarks_null_results initial).2
                eq_refl eq_refl Hcycle Themes).
  apply (f_equal (field "themes")) in H. vm_compute in H. discriminate H.
Qed.

(** C7, amended.  Once all five requests have settled, the aggregate
    load resolves to a tuple of exactly five results in the fixed order
    apps, bookmarks, search providers, themes, imprint: the position of
    a kind holds the parsed body of its response or, when its load
    failed, the defaults of the kind with the message of the failure.
    When no body was parsed to a value whose [error] cannot be read
    (the JSON [null]), the store writes the result at each position
    into the slice of the corresponding kind ([appData],
    [bookmarkData], [searchProviderData], [themeData], [imprintData]). *)
Theorem results_in_fixed_order (env : Env) :
  inProduction env = true ->
  (forall k, payload env k ≠ Pending) ->
  exists results,
    selected env (consts (boot env)) = Fulfilled results
    /\ results = [result_of env Apps; result_of env Bookmarks;
                  result_of env SearchProviders; result_of env Themes;
                  result_of env Imprint]
    /\ (forall k v, payload env k = Fulfilled v -> results !! position k = Some v)
    /\ (forall k cause,
          payload env k = Rejected cause ->
          results !! position k
          = Some (VObj (<["error" := VStr (message cause)]> (default_of k))))
    /\ ((forall k v, payload env k = Fulfilled v -> exists e, get_error v = Normal e) ->
        forall evs s',
          cycle_completes env evs s' ->
          appData s' = stored (result_of env Apps)
          /\ bookmarkData s' = stored (result_of env Bookmarks)
          /\ searchProviderData s' = stored (result_of env SearchProviders)
          /\ themeData s' = stored (result_of env Themes)
          /\ imprintData s' = stored (result_of env Imprint)).
Proof.
  intros Hprod Hsettle. exists (result_of env <$> kinds).
  assert (Hpay : forall k, payload env k = then_ (world env 0 (url k)) handleResponse).
  { intros k. unfold payload. by rewrite Hprod. }
  assert (Hload : forall k,
             load_result k (world env 0 (url k)) = Fulfilled (result_of env k)).
  { intros k. specialize (Hsettle k). rewrite Hpay in Hsettle.
    unfold result_of, load_result.
    destruct (then_ (world env 0 (url k)) handleResponse); simpl; [done|done|].
    by rewrite handleError_kind. }
  pose proof (production_all_settled env (result_of env) Hprod Hload) as Hsel.
  assert (Hlookup : forall k,
             (result_of env <$> kinds) !! position k = Some (result_of env k)).
  { intros k. by rewrite list_lookup_fmap, kinds_lookup. }
  split; [done|]. split; [done|]. split; [|split].
  - intros k v Hk. rewrite Hlookup. unfold result_of. by rewrite <- Hpay, Hk.
  - intros k cause Hk. rewrite Hlookup. unfold result_of. by rewrite <- Hpay, Hk.
  - intros Hread evs s' Hcycle.
    destruct (cycle_completes_inv _ _ _ _ Hsel Hcycle) as (s & _ & ->).
    rewrite callback_then_normal; [done|].
    intros k. replace (nth (position k) (result_of env <$> kinds) VUndefined)
      with (result_of env k) by by destruct k.
    unfold result_of. specialize (Hsettle k). rewrite Hpay in Hsettle.
    specialize (Hread k). rewrite Hpay in Hread.
    destruct (then_ (world env 0 (url k)) handleResponse) as [|v|cause];
      [done | by apply Hread | apply get_error_object].
Qed.

Lemma results_in_fixed_order_witness :
  (forall k, payload (Samples.production Samples.apps_500) k ≠ Pending)
  /\ exists results,
      selected (Samples.production Samples.apps_500)
        (consts (boot (Samples.production Samples.apps_500))) = Fulfilled results
      /\ results !! 0
         = Some (VObj (<["error" := VStr "Failed to load data."]> defaults.app))
      /\ results !! 3 = Some (VObj Samples.themes_json)
      /\ themeData (callback_then Samples.apps_500_results initial).2
         = VObj (<["error" := VBool false]> Samples.themes_json).
Proof.
  assert (Hsettle : forall k, payload (Samples.production Samples.apps_500) k ≠ Pending).
  { intros []; discriminate. }
  assert (Hread : forall k v,
            payload (Samples.production Samples.apps_500) k = Fulfilled v ->
            exists e, get_error v = Normal e).
  { intros [] v H; vm_compute in H; try discriminate H; injection H as <-; by eexists. }
  split; [exact Hsettle|].
  destruct (results_in_fixed_order (Samples.production Samples.apps_500) eq_refl Hsettle)
    as (results & Hsel & _ & Hok & Hfail & Hstore).
  exists results. split; [exact Hsel|]. split; [|split].
  - exact (Hfail Apps (mkError "Error" errorMessage) eq_refl).
  - exact (Hok Themes (VObj Samples.themes_json) eq_refl).
  - exact (proj1 (proj2 (proj2 (proj2
             (Hstore Hread [Render] _
                (cycle_completes_first (Samples.production Samples.apps_500)
                   Samples.apps_500_results eq_refl)))))).
Defined.

(** ** Construction of the store *)

Lemma effects_unmounted env evs :
  Render ∉ evs ->
  state (run env evs (boot env)) = None /\ effects (run env evs (boot env)) = 0.
Proof.
  induction evs as [|ev evs IH] using rev_ind; [done|].
  rewrite not_elem_of_app, run_app. intros [Hevs Hev]. simpl.
  destruct (IH Hevs) as [Hs He].
  pose proof (wf_run env evs _ (wf_boot env)) as Hwf.
  destruct (wf_unmounted _ _ Hwf Hs) as (Hm & _ & Hj & _).
  destruct ev; simpl.
  - exfalso. apply Hev. left.
  - by rewrite Hm.
  - unfold run_job. by rewrite Hj.
  - done.
Qed.

Lemma mounted_step env a ev :
  wf env a -> is_Some (state a) -> is_Some (state (step env a ev)).
Proof.
  intros Hwf [s Hs]. destruct ev; simpl.
  - destruct (wf_mounted _ _ Hwf s Hs) as (f & Hm & Hd & _).
    by rewrite (useFetcher_again _ _ _ _ Hs Hm Hd).
  - destruct (memo a); rewrite ?callback_state; by rewrite Hs.
  - unfold run_job. destruct (jobs a) as [|results rest]; [by rewrite Hs|].
    rewrite Hs. by destruct (callback_then results s).
  - by rewrite Hs.
Qed.

Lemma mounted_run env evs a :
  wf env a -> is_Some (state a) -> is_Some (state (run env evs a)).
Proof.
  revert a. induction evs as [|ev evs IH]; intros a Hwf Hs; [done|].
  simpl. apply IH; [by apply wf_step | by apply mounted_step].
Qed.

Lemma effects_mounted env evs :
  effects (run env (Render :: evs) (boot env)) = 1.
Proof.
  change (Render :: evs) with ([Render] ++ evs). rewrite run_app.
  pose proof (wf_run env [Render] _ (wf_boot env)) as Hwf1.
  destruct (first_render env) as (Hs & _).
  destruct (mounted_run env evs _ Hwf1) as [s Hs']; [by rewrite Hs|].
  by destruct (wf_mounted _ _ (wf_run env evs _ Hwf1) s Hs') as (f & _ & _ & ->).
Qed.

(** C6.  On construction of the store, the first render of
    [useFetcher], all five slices hold their default values with
    [error = false], and a refresh is triggered automatically exactly
    once: the effect has not run before the first render, it has run
    once after it whatever happens later, and its reaction stores the
    loaded data without any call from outside. *)
Theorem construction_defaults_and_single_refresh (env : Env) :
  state (run env [Render] (boot env)) = Some initial
  /\ (forall k, slice k initial = VObj (default_of k)
                /\ default_of k !! "error" = Some (VBool false))
  /\ (forall evs, Render ∉ evs -> effects (run env evs (boot env)) = 0)
  /\ (forall evs, effects (run env (Render :: evs) (boot env)) = 1)
  /\ (forall results,
        selected env (consts (boot env)) = Fulfilled results ->
        jobs (run env [Render] (boot env)) = [results]
        /\ state (run env [Render; Job] (boot env))
           = Some (callback_then results initial).2).
Proof.
  destruct (first_render env) as (Hs & _ & Hj).
  split; [done|]. split; [by intros []|].
  split; [intros evs Hevs; by apply effects_unmounted|].
  split; [apply effects_mounted|].
  intros results Hsel. rewrite Hsel in Hj. split; [done|]. by apply first_cycle.
Qed.

Lemma construction_defaults_and_single_refresh_witness :
  (Render ∉ [Tick; Refresh; Job])
  /\ effects (run (Samples.production Samples.healthy) [Tick; Refresh; Job]
                (boot (Samples.production Samples.healthy))) = 0
  /\ jobs (run (Samples.production Samples.healthy) [Render]
             (boot (Samples.production Samples.healthy)))
     = [Samples.healthy_results]
  /\ state (run (Samples.production Samples.healthy) [Render; Job]
              (boot (Samples.production Samples.healthy)))
     = Some (callback_then Samples.healthy_results initial).2.
Proof.
  assert (Hevs : Render ∉ [Tick; Refresh; Job]).
  { intros H. repeat (apply elem_of_cons in H as [H|H]; [discriminate H|]).
    by apply elem_of_nil in H. }
  destruct (construction_defaults_and_single_refresh (Samples.production Samples.healthy))
    as (_ & _ & Hbefore & _ & Hfirst).
  split; [exact Hevs|]. split; [exact (Hbefore _ Hevs)|].
  exact (Hfirst Samples.healthy_results eq_refl).
Defined.

(** ** What [callback] loads *)

(** C1, as stated, does not hold: [fetchProduction] is a constant of
    the module, one promise created when the module is evaluated.  On a
    server whose [/data/apps.json] has changed since, a call of
    [callback] stores the apps that were loaded then, not those a fresh
    request would load. *)
Lemma fresh_refresh_counterexample : ~ spec_fresh_refresh.
Proof.
  intros H.
  specialize (H (Samples.production Samples.changing) [Render; Job; Tick]
                (callback_then Samples.healthy_results initial).2
                changing_later_results eq_refl eq_refl eq_refl eq_refl).
  apply (f_equal (fun st => match st with
                            | Some s => field "apps" (appData s)
                            | None => None
                            end)) in H.
  vm_compute in H. discriminate H.
Qed.

(** C1, amended.  Every invocation of [callback] derives the five
    slices from the one aggregate load that was started when the module
    was evaluated: the constants of the module never change, the five
    requests of that evaluation are the only ones ever issued, and
    every refresh cycle stores the value of the same promise, whenever
    it takes place. *)
Theorem refresh_shares_single_load (env : Env) (evs : list Event) :
  consts (run env evs (boot env))
  = mkModule (fetchProduction_init (world env) (mkNet 0 [])).1
             (fetchDevelopment_init (import_ env))
  /\ requests (net (run env evs (boot env)))
     = ["/data/apps.json"; "/data/bookmarks.json"; "/data/search.json";
        "/data/themes.json"; "/data/imprint.json"]
  /\ forall s results,
      selected env (consts (boot env)) = Fulfilled results ->
      state (run env evs (boot env)) = Some s ->
      state (run env (evs ++ [Refresh; Job]) (boot env))
      = Some (callback_then results s).2.
Proof.
  pose proof (wf_run env evs _ (wf_boot env)) as Hwf.
  split; [by rewrite (wf_consts _ _ Hwf)|].
  split; [by rewrite (wf_requests _ _ Hwf)|].
  intros s results Hsel Hs. rewrite run_app. by apply refresh_cycle.
Qed.

Lemma refresh_shares_single_load_witness :
  state (run (Samples.production Samples.changing) [Render; Job; Tick]
           (boot (Samples.production Samples.changing)))
  = Some (callback_then Samples.healthy_results initial).2
  /\ state (run (Samples.production Samples.changing)
              ([Render; Job; Tick] ++ [Refresh; Job])
              (boot (Samples.production Samples.changing)))
     = Some (callback_then Samples.healthy_results
               (callback_then Samples.healthy_results initial).2).2.
Proof.
  split; [reflexivity|].
  exact (proj2 (proj2 (refresh_shares_single_load (Samples.production Samples.changing)
                         [Render; Job; Tick]))
           (callback_then Samples.healthy_results initial).2
           Samples.healthy_results eq_refl eq_refl).
Defined.

(** ** A load that never settles, a load that is rejected *)

(** While the selected promise is not fulfilled, no reaction is ever
    queued and the state variables keep their initial values. *)
Lemma unsettled_step env a ev :
  (forall results, selected env (consts (boot env)) ≠ Fulfilled results) ->
  wf env a ->
  jobs a = [] /\ (forall s, state a = Some s -> s = initial) ->
  jobs (step env a ev) = []
  /\ (forall s, state (step env a ev) = Some s -> s = initial).
Proof.
  intros Hsel Hwf [Hj Hs].
  assert (Hcb : forall b, consts b = consts a -> jobs b = [] ->
                          jobs (callback env b) = [] /\ state (callback env b) = state b).
  { intros b Hb Hjb. unfold callback.
    destruct (if inProduction env then _ else _) as [|results|e] eqn:E; try done.
    exfalso. apply (Hsel results). unfold selected.
    by rewrite <- (wf_consts _ _ Hwf), <- Hb. }
  destruct ev; simpl.
  - destruct (state a) as [s|] eqn:Es.
    + destruct (wf_mounted _ _ Hwf s Es) as (f & Hm & Hd & _).
      rewrite (useFetcher_again _ _ _ _ Es Hm Hd). simpl. split; [done|].
      intros s' [= <-]. by apply Hs.
    + destruct (wf_unmounted _ _ Hwf Es) as (Hm & Hd & _).
      rewrite (useFetcher_first _ _ Es Hm Hd).
      edestruct Hcb as [-> ->]; [done | done |]. simpl. split; [done|]. by intros s [= <-].
  - destruct (memo a); [|done]. destruct (Hcb a eq_refl Hj) as [-> ->]. done.
  - unfold run_job. by rewrite Hj.
  - done.
Qed.

Lemma unsettled_run env evs a :
  (forall results, selected env (consts (boot env)) ≠ Fulfilled results) ->
  wf env a ->
  jobs a = [] /\ (forall s, state a = Some s -> s = initial) ->
  jobs (run env evs a) = []
  /\ (forall s, state (run env evs a) = Some s -> s = initial).
Proof.
  intros Hsel. revert a. induction evs as [|ev evs IH]; intros a Hwf Ha; [done|].
  simpl. apply IH; [by apply wf_step | by apply unsettled_step].
Qed.

(** X1.  In production, when the request of one resource never settles
    (the request itself or the reading of its body), the aggregate
    never settles either: whatever happens afterwards, no reaction is
    queued and all five slices keep their default values, those of the
    four resources that answered included. *)
Theorem hung_request_blocks_all_slices
    (env : Env) (k : Kind) (evs : list Event) :
  inProduction env = true ->
  payload env k = Pending ->
  selected env (consts (boot env)) = Pending
  /\ jobs (run env evs (boot env)) = []
  /\ forall s, state (run env evs (boot env)) = Some s -> s = initial.
Proof.
  intros Hprod Hk.
  assert (Hload : load_result k (world env 0 (url k)) = Pending).
  { unfold payload in Hk. rewrite Hprod in Hk. unfold load_result. by rewrite Hk. }
  assert (Hnot : forall results, selected env (consts (boot env)) ≠ Fulfilled results).
  { intros results Hsel.
    pose proof (production_position env results k Hprod Hsel) as Hpos. congruence. }
  split.
  - destruct (selected env (consts (boot env))) as [|results|e] eqn:E; [done| |].
    + by destruct (Hnot results).
    + by destruct (production_not_Rejected env e Hprod).
  - by apply unsettled_run; [|apply wf_boot|].
Qed.

Lemma hung_request_blocks_all_slices_witness :
  payload (Samples.production themes_hung) Themes = Pending
  /\ state (run (Samples.production themes_hung) [Render; Job; Tick; Refresh; Job; Render]
              (boot (Samples.production themes_hung)))
     = Some initial.
Proof.
  split; [reflexivity|].
  destruct (hung_request_blocks_all_slices (Samples.production themes_hung) Themes
              [Render; Job; Tick; Refresh; Job; Render] eq_refl eq_refl) as (_ & _ & H).
  destruct (state (run (Samples.production themes_hung)
                     [Render; Job; Tick; Refresh; Job; Render]
                     (boot (Samples.production themes_hung)))) as [s|] eqn:E.
  - f_equal. by apply H.
  - vm_compute in E. discriminate E.
Defined.

Lemma callback_rejected env a e :
  selected env (consts a) = Rejected e ->
  callback env a
  = mkApp (net a) (consts a) (state a) (memo a) (deps a) (renders a) (effects a)
          (jobs a) (uncaught a ++ [e]).
Proof. unfold callback, selected. by intros ->. Qed.

Lemma Promise_all_rejects {A} (ps : list (Promise A)) e :
  Rejected e ∈ ps -> exists e', Promise_all ps = Rejected e'.
Proof.
  intros Hin. unfold Promise_all.
  assert (H : exists e', first_rejection ps = Some e').
  { induction ps as [|p ps IH]; [by apply elem_of_nil in Hin|].
    apply elem_of_cons in Hin as [<-|Hin]; [by eexists|].
    destruct p; simpl; eauto. }
  destruct H as [e' ->]. by exists e'.
Qed.

Lemma rejected_uncaught_step env e' a ev :
  selected env (consts (boot env)) = Rejected e' ->
  wf env a -> jobs a = [] ->
  uncaught (step env a ev)
  = uncaught a
    ++ replicate
         (callback_calls (match state a with Some _ => true | None => false end) [ev]) e'
  /\ (match state (step env a ev) with Some _ => true | None => false end)
     = match ev with
       | Render => true
       | _ => match state a with Some _ => true | None => false end
       end.
Proof.
  intros Hsel Hwf Hj.
  assert (Hca : selected env (consts a) = Rejected e') by by rewrite (wf_consts _ _ Hwf).
  destruct ev; simpl.
  - destruct (state a) as [s|] eqn:Hs.
    + destruct (wf_mounted _ _ Hwf s Hs) as (f & Hm & Hd & _).
      rewrite (useFetcher_again _ _ _ _ Hs Hm Hd). simpl. by rewrite app_nil_r.
    + destruct (wf_unmounted _ _ Hwf Hs) as (Hm & Hd & _).
      rewrite (useFetcher_first _ _ Hs Hm Hd).
      by rewrite (callback_rejected _ _ e').
  - destruct (state a) as [s|] eqn:Hs.
    + destruct (wf_mounted _ _ Hwf s Hs) as (f & Hm & _). rewrite Hm.
      rewrite (callback_rejected _ _ e') by done. simpl. by rewrite Hs.
    + destruct (wf_unmounted _ _ Hwf Hs) as (Hm & _). rewrite Hm, Hs.
      simpl. by rewrite app_nil_r.
  - unfold run_job. rewrite Hj. simpl. rewrite app_nil_r. by destruct (state a).
  - rewrite app_nil_r. by destruct (state a).
Qed.

Lemma callback_calls_cons mounted ev evs :
  callback_calls mounted (ev :: evs)
  = callback_calls mounted [ev]
    + callback_calls (match ev with Render => true | _ => mounted end) evs.
Proof. destruct ev, mounted; simpl; lia. Qed.

Lemma rejected_uncaught_run env e' evs a :
  selected env (consts (boot env)) = Rejected e' ->
  wf env a ->
  jobs a = [] /\ (forall s, state a = Some s -> s = initial) ->
  uncaught (run env evs a)
  = uncaught a
    ++ replicate
         (callback_calls (match state a with Some _ => true | None => false end) evs) e'.
Proof.
  intros Hsel. revert a. induction evs as [|ev evs IH]; intros a Hwf Ha.
  { simpl. by rewrite app_nil_r. }
  assert (Hnot : forall results, selected env (consts (boot env)) ≠ Fulfilled results).
  { intros results. by rewrite Hsel. }
  destruct (rejected_uncaught_step env e' a ev Hsel Hwf (proj1 Ha)) as [Hu Hm].
  simpl run. rewrite IH; [|by apply wf_step|by apply unsettled_step].
  rewrite Hu, Hm, (callback_calls_cons _ ev evs), replicate_add. by rewrite app_assoc.
Qed.

(** X2.  In development the imports have no [catch]: when one import is
    rejected the aggregate is rejected, each call of [callback] (the
    one of the effect of the first render and every later one, in any
    sequence of events) ends in one more error that nobody handles, and
    all five slices keep their default values whatever happens. *)
Theorem rejected_import_blocks_all_slices
    (env : Env) (k : Kind) (e : Error) (evs : list Event) :
  inProduction env = false ->
  import_ env (path k) = Rejected e ->
  exists e',
    selected env (consts (boot env)) = Rejected e'
    /\ uncaught (run env evs (boot env))
       = uncaught (boot env) ++ replicate (callback_calls false evs) e'
    /\ forall s, state (run env evs (boot env)) = Some s -> s = initial.
Proof.
  intros Hdev Hk.
  assert (Hsel : exists e', selected env (consts (boot env)) = Rejected e').
  { unfold selected. rewrite Hdev.
    change (fetchDevelopment (consts (boot env)))
      with (Promise_all ((fun k => import_ env (path k)) <$> kinds)).
    apply (Promise_all_rejects _ e). rewrite <- Hk.
    apply list_elem_of_fmap. exists k. split; [done|]. destruct k; set_solver. }
  destruct Hsel as [e' Hsel]. exists e'. split; [done|]. split.
  - by apply (rejected_uncaught_run env e' evs (boot env) Hsel (wf_boot env)).
  - apply unsettled_run; [|apply wf_boot|done]. intros results. by rewrite Hsel.
Qed.

Lemma rejected_import_blocks_all_slices_witness :
  import_ (mkEnv false Samples.healthy imprint_missing) (path Imprint)
  = Rejected (mkError "Error" "Cannot find module '../data/imprint.json'")
  /\ exists e',
      uncaught (run (mkEnv false Samples.healthy imprint_missing)
                  [Render; Job; Refresh; Tick; Render; Refresh]
                  (boot (mkEnv false Samples.healthy imprint_missing)))
      = [e'; e'; e'].
Proof.
  split; [reflexivity|].
  destruct (rejected_import_blocks_all_slices
              (mkEnv false Samples.healthy imprint_missing) Imprint
              (mkError "Error" "Cannot find module '../data/imprint.json'")
              [Render; Job; Refresh; Tick; Render; Refresh] eq_refl eq_refl)
    as (e' & _ & H & _).
  by exists e'.
Defined.

(** ** Refreshing again *)

Lemma callback_then_readable results s :
  readable results -> callback_then results s = (Normal tt, settled results).
Proof. apply callback_then_normal. Qed.

Lemma settled_step env a ev results :
  selected env (consts (boot env)) = Fulfilled results ->
  readable results ->
  wf env a ->
  state a = Some (settled results) ->
  state (step env a ev) = Some (settled results).
Proof.
  intros Hsel Hread Hwf Hs. destruct ev; simpl.
  - destruct (wf_mounted _ _ Hwf _ Hs) as (f & Hm & Hd & _).
    by rewrite (useFetcher_again _ _ _ _ Hs Hm Hd).
  - destruct (memo a); by rewrite ?callback_state.
  - destruct (jobs a) as [|r rest] eqn:Ej; [unfold run_job; by rewrite Ej|].
    rewrite (job_state env a _ results Hwf Hsel Hs) by by rewrite Ej.
    by rewrite callback_then_readable.
  - done.
Qed.

(** X3.  When the [error] of each of the five results can be read, the
    state variables left by the first completed cycle are final: no
    later render, call of [callback], reaction or passing of time
    changes any slice, so that refreshing again never shows anything
    new. *)
Theorem first_completed_cycle_is_final
    (env : Env) (results : list value) (evs evs' : list Event) (s' : Slices) :
  selected env (consts (boot env)) = Fulfilled results ->
  readable results ->
  cycle_completes env evs s' ->
  s' = settled results
  /\ state (run env (evs ++ Job :: evs') (boot env)) = Some s'.
Proof.
  intros Hsel Hread Hcycle.
  destruct (cycle_completes_inv _ _ _ _ Hsel Hcycle) as (s & Hs & ->).
  rewrite callback_then_readable by done. simpl. split; [done|].
  destruct Hcycle as (_ & _ & Hs').
  rewrite callback_then_readable in Hs' by done. simpl in Hs'.
  change (Job :: evs') with ([Job] ++ evs'). rewrite app_assoc, run_app.
  assert (Hwf : wf env (run env (evs ++ [Job]) (boot env))) by apply wf_run, wf_boot.
  revert Hwf Hs'. generalize (run env (evs ++ [Job]) (boot env)).
  induction evs' as [|ev evs' IH]; intros a Hwf Ha; [done|].
  simpl. apply IH; [by apply wf_step | by apply (settled_step env a ev results)].
Qed.

Lemma first_completed_cycle_is_final_witness :
  state (run (Samples.production Samples.changing)
           ([Render] ++ Job :: [Tick; Refresh; Job; Render; Refresh; Job])
           (boot (Samples.production Samples.changing)))
  = Some (callback_then Samples.healthy_results initial).2.
Proof.
  assert (Hread : readable Samples.healthy_results).
  { intros []; by eexists. }
  exact (proj2 (first_completed_cycle_is_final (Samples.production Samples.changing)
                  Samples.healthy_results [Render] [Tick; Refresh; Job; Render; Refresh; Job]
                  (callback_then Samples.healthy_results initial).2 eq_refl Hread
                  (cycle_completes_first (Samples.production Samples.changing)
                     Samples.healthy_results eq_refl))).
Defined.

(** ** A result whose [error] cannot be read *)

(** X4.  When the [error] of a result cannot be read (the body was the
    JSON [null]), the reaction throws at the statement of that result:
    the slices of the results before it are already stored, the slice
    of that result and those of all later results keep the values they
    had, and the error leaves the reaction. *)
Theorem reaction_stops_at_unreadable_result
    (results : list value) (s : Slices) (k0 : Kind) (e : Error) :
  (forall k, position k < position k0 ->
     exists e', get_error (nth (position k) results VUndefined) = Normal e') ->
  get_error (nth (position k0) results VUndefined) = Throw e ->
  (callback_then results s).1 = Throw e
  /\ forall k,
      slice k (callback_then results s).2
      = if decide (position k < position k0)
        then stored (nth (position k) results VUndefined)
        else slice k s.
Proof.
  intros Hbefore Hk0.
  assert (H0 : 0 < position k0 -> exists e', get_error (nth 0 results VUndefined) = Normal e')
    by (intros H; exact (Hbefore Apps H)).
  assert (H1 : 1 < position k0 -> exists e', get_error (nth 1 results VUndefined) = Normal e')
    by (intros H; exact (Hbefore Bookmarks H)).
  assert (H2 : 2 < position k0 -> exists e', get_error (nth 2 results VUndefined) = Normal e')
    by (intros H; exact (Hbefore SearchProviders H)).
  assert (H3 : 3 < position k0 -> exists e', get_error (nth 3 results VUndefined) = Normal e')
    by (intros H; exact (Hbefore Themes H)).
  clear Hbefore.
  split; [|intros k]; unfold callback_then, and_then, eval, stored;
    destruct k0; try destruct k; simpl in *;
    repeat match goal with
      | H : _ < _ -> exists _, _ |- _ =>
          first [ destruct H as [? H]; [lia|] | clear H ]
      end;
    repeat match goal with
      | E : get_error _ = _ |- _ => rewrite E; clear E
      end;
    repeat match goal with
      | |- context [truthy ?x] => destruct (truthy x)
      end;
    reflexivity.
Qed.

Lemma reaction_stops_at_unreadable_result_witness :
  (callback_then bookmarks_null_results initial).1
  = Throw (mkError "TypeError" "Cannot read properties of null (reading 'error')")
  /\ slice Apps (callback_then bookmarks_null_results initial).2
     = VObj (<["error" := VBool false]> Samples.apps_json)
  /\ slice Themes (callback_then bookmarks_null_results initial).2
     = VObj defaults.theme.
Proof.
  assert (Hbefore : forall k, position k < position Bookmarks ->
            exists e', get_error (nth (position k) bookmarks_null_results VUndefined)
                       = Normal e').
  { intros [] H; simpl in H; try lia. by eexists. }
  destruct (reaction_stops_at_unreadable_result bookmarks_null_results initial Bookmarks
              (mkError "TypeError" "Cannot read properties of null (reading 'error')")
              Hbefore eq_refl) as [Hthrow Hslices].
  split; [exact Hthrow|]. split; [exact (Hslices Apps) | exact (Hslices Themes)].
Defined.

(** ** Bodies and errors of an unexpected form *)

(** X5.  The store does not look at the shape of a payload: when the
    body of a resource that loads successfully is a JSON boolean or
    number, then in a cycle in which the [error] of the results of the
    kinds stored before it can be read (none is the JSON [null]), the
    slice of that resource becomes the object whose only field is
    [error = false]; nothing of the payload is kept and no error is
    reported. *)
Theorem primitive_body_leaves_bare_error_flag
    (env : Env) (results : list value) (evs : list Event) (s' : Slices)
    (k : Kind) (v : value) :
  selected env (consts (boot env)) = Fulfilled results ->
  reaches results k ->
  payload env k = Fulfilled v ->
  (exists b, v = VBool b) \/ (exists n, v = VNum n) ->
  cycle_completes env evs s' ->
  slice k s' = VObj {["error" := VBool false]}.
Proof.
  intros Hsel Hbefore Hk Hv Hcycle.
  pose proof (payload_position _ _ _ _ Hsel Hk) as Hpos.
  rewrite (cycle_reaches env results evs s' k Hsel Hcycle Hbefore).
  - rewrite Hpos. by destruct Hv as [[b ->]|[n ->]].
  - rewrite Hpos. destruct Hv as [[b ->]|[n ->]]; by eexists.
Qed.

Lemma primitive_body_leaves_bare_error_flag_witness :
  payload (Samples.production search_number) SearchProviders = Fulfilled (VNum 42)
  /\ slice SearchProviders (callback_then search_number_results initial).2
     = VObj {["error" := VBool false]}.
Proof.
  split; [reflexivity|].
  assert (Hbefore : reaches search_number_results SearchProviders).
  { intros [] H; simpl in H; try lia; by eexists. }
  exact (primitive_body_leaves_bare_error_flag (Samples.production search_number)
           search_number_results [Render] (callback_then search_number_results initial).2
           SearchProviders (VNum 42) eq_refl Hbefore eq_refl
           (or_intror (ex_intro _ 42%Z eq_refl))
           (cycle_completes_first (Samples.production search_number)
              search_number_results eq_refl)).
Defined.

Lemma silent_failure_step env k cause a ev :
  inProduction env = true ->
  fails (world env 0 (url k)) cause ->
  message cause = "" ->
  wf env a ->
  (forall s, state a = Some s -> slice k s = VObj (default_of k)) ->
  forall s, state (step env a ev) = Some s -> slice k s = VObj (default_of k).
Proof.
  intros Hprod Hfail Hmsg Hwf Hinv. destruct ev; simpl.
  - destruct (state a) as [s|] eqn:Hs.
    + destruct (wf_mounted _ _ Hwf s Hs) as (f & Hm & Hd & _).
      rewrite (useFetcher_again _ _ _ _ Hs Hm Hd). intros s' [= <-]. by apply Hinv.
    + destruct (wf_unmounted _ _ Hwf Hs) as (Hm & Hd & _).
      rewrite (useFetcher_first _ _ Hs Hm Hd). intros s'.
      rewrite callback_state. simpl. intros [= <-]. by destruct k.
  - destruct (memo a); [|exact Hinv]. intros s. rewrite callback_state. apply Hinv.
  - unfold run_job. destruct (jobs a) as [|results rest] eqn:Ejobs; [exact Hinv|].
    destruct (state a) as [s|] eqn:Hs; [|by rewrite Hs].
    assert (Hsel : selected env (consts (boot env)) = Fulfilled results).
    { pose proof (wf_jobs _ _ Hwf) as Hj. rewrite Ejobs in Hj.
      inversion Hj as [|? ? Hr _]; subst. by rewrite <- (wf_consts _ _ Hwf). }
    pose proof (callback_then_slice results s k) as Hslice.
    destruct (callback_then results s) as [c s']. simpl in Hslice.
    intros s'' [= <-]. destruct Hslice as [-> | [_ ->]]; [by apply Hinv|].
    pose proof (production_position env results k Hprod Hsel) as Hpos.
    rewrite (load_result_fails _ _ _ Hfail), Hmsg in Hpos. injection Hpos as <-.
    rewrite stored_object, lookup_insert_eq. simpl. by rewrite default_error_false.
  - exact Hinv.
Qed.

(** X6.  The store tells a failure from a success by the truthiness of
    [error] alone: when the load of a resource fails with an error
    whose message is the empty string, the slice of that resource is
    its default value, with [error = false], in every state that the
    component reaches, before and after every cycle, and nothing ever
    shows that the load has failed. *)
Theorem failure_without_message_is_invisible
    (env : Env) (k : Kind) (cause : Error) (evs : list Event) (s : Slices) :
  inProduction env = true ->
  fails (world env 0 (url k)) cause ->
  message cause = "" ->
  state (run env evs (boot env)) = Some s ->
  slice k s = VObj (default_of k) /\ slice k s = slice k initial.
Proof.
  intros Hprod Hfail Hmsg Hs.
  assert (H : slice k s = VObj (default_of k)).
  { revert s Hs.
    assert (Hwf : wf env (boot env)) by apply wf_boot.
    assert (Hinv : forall s, state (boot env) = Some s -> slice k s = VObj (default_of k))
      by done.
    revert Hwf Hinv. generalize (boot env).
    induction evs as [|ev evs IH]; intros a Hwf Hinv; [exact Hinv|].
    simpl. apply IH; [by apply wf_step|].
    by apply (silent_failure_step env k cause). }
  split; [done|]. rewrite H. by destruct k.
Qed.

Lemma failure_without_message_is_invisible_witness :
  fails (world (Samples.production apps_silent_failure) 0 (url Apps)) (mkError "Error" "")
  /\ slice Apps (callback_then apps_silent_failure_results initial).2
     = VObj defaults.app.
Proof.
  split; [reflexivity|].
  exact (proj1 (failure_without_message_is_invisible
                  (Samples.production apps_silent_failure) Apps (mkError "Error" "")
                  [Render; Job] (callback_then apps_silent_failure_results initial).2
                  eq_refl eq_refl eq_refl
                  (first_cycle (Samples.production apps_silent_failure)
                     apps_silent_failure_results eq_refl))).
Defined.

(** ** Calls of [callback] that are not coalesced *)

Lemma run_refreshes env a n results :
  selected env (consts a) = Fulfilled results ->
  is_Some (memo a) ->
  jobs (run env (replicate n Refresh) a) = jobs a ++ replicate n results.
Proof.
  intros Hsel [f Hm]. revert a Hsel Hm.
  induction n as [|n IH]; intros a Hsel Hm; simpl; [by rewrite app_nil_r|].
  rewrite Hm. unfold callback at 1. unfold selected in Hsel. rewrite Hsel.
  rewrite IH; simpl; try done. by rewrite <- app_assoc.
Qed.

(** X7.  Calls of [callback] are not coalesced: once the aggregate is
    fulfilled, the effect of the first render and [n] further calls
    queue [n + 1] reactions, each of which will store the same five
    results. *)
Theorem callbacks_queue_one_reaction_each
    (env : Env) (results : list value) (n : nat) :
  selected env (consts (boot env)) = Fulfilled results ->
  jobs (run env (Render :: replicate n Refresh) (boot env)) = replicate (S n) results.
Proof.
  intros Hsel. change (Render :: replicate n Refresh) with ([Render] ++ replicate n Refresh).
  rewrite run_app.
  pose proof (wf_run env [Render] _ (wf_boot env)) as Hwf.
  destruct (first_render env) as (Hs & _ & Hj). rewrite Hsel in Hj.
  destruct (wf_mounted _ _ Hwf _ Hs) as (f & Hm & _).
  rewrite (run_refreshes env _ n results); [by rewrite Hj | | by rewrite Hm].
  by rewrite (wf_consts _ _ Hwf).
Qed.

Lemma callbacks_queue_one_reaction_each_witness :
  jobs (run (Samples.production Samples.healthy) (Render :: replicate 2 Refresh)
          (boot (Samples.production Samples.healthy)))
  = replicate 3 Samples.healthy_results.
Proof.
  exact (callbacks_queue_one_reaction_each (Samples.production Samples.healthy)
           Samples.healthy_results 2 eq_refl).
Defined.

(** ** What the state variables depend on *)

Lemma callback_consts env a : consts (callback env a) = consts a.
Proof. unfold callback. by destruct (if inProduction env then _ else _). Qed.

Lemma useFetcher_consts env a : consts (useFetcher env a) = consts a.
Proof.
  unfold useFetcher. destruct (useEffect _ _); [|done]. by rewrite callback_consts.
Qed.

Lemma step_consts env a ev : consts (step env a ev) = consts a.
Proof.
  destruct ev; simpl.
  - apply useFetcher_consts.
  - destruct (memo a); [apply callback_consts | done].
  - unfold run_job. destruct (jobs a); [done|]. destruct (state a); [|done].
    by destruct (callback_then _ _).
  - done.
Qed.

Lemma callback_same_view env env' a a' :
  selected env (consts a) = selected env' (consts a') ->
  same_view a a' -> same_view (callback env a) (callback env' a').
Proof.
  intros Hsel [Hs Hm Hd Hr He Hj Hu]. unfold callback.
  change (if inProduction env then fetchProduction (consts a)
          else fetchDevelopment (consts a)) with (selected env (consts a)).
  change (if inProduction env' then fetchProduction (consts a')
          else fetchDevelopment (consts a')) with (selected env' (consts a')).
  rewrite Hsel. destruct (selected env' (consts a')); split; simpl; congruence.
Qed.

Lemma useFetcher_same_view env env' a a' :
  selected env (consts a) = selected env' (consts a') ->
  same_view a a' -> same_view (useFetcher env a) (useFetcher env' a').
Proof.
  intros Hsel [Hs Hm Hd Hr He Hj Hu]. unfold useFetcher.
  rewrite Hs, Hm, Hd, Hr, He, Hj, Hu.
  destruct (useEffect _ _); [apply callback_same_view; [done|] |]; by split.
Qed.

Lemma step_same_view env env' a a' ev :
  selected env (consts a) = selected env' (consts a') ->
  same_view a a' -> same_view (step env a ev) (step env' a' ev).
Proof.
  intros Hsel Hv. destruct ev; simpl.
  - by apply useFetcher_same_view.
  - rewrite (sv_memo _ _ Hv). destruct (memo a'); [by apply callback_same_view | done].
  - destruct Hv as [Hs Hm Hd Hr He Hj Hu]. unfold run_job. rewrite Hs, Hj.
    destruct (jobs a') as [|r rest] eqn:Ej; [split; congruence|].
    destruct (state a') as [s|] eqn:Es; [|split; congruence].
    destruct (callback_then r s) as [[|e] s']; split; simpl; congruence.
  - destruct Hv. by split.
Qed.

Lemma run_same_view env env' evs a a' :
  selected env (consts a) = selected env' (consts a') ->
  same_view a a' -> same_view (run env evs a) (run env' evs a').
Proof.
  revert a a'. induction evs as [|ev evs IH]; intros a a' Hsel Hv; [done|].
  simpl. apply IH; [by rewrite !step_consts | by apply step_same_view].
Qed.

Lemma boot_same_view env env' : same_view (boot env) (boot env').
Proof. by split. Qed.

(** X8.  The state variables depend on the selected aggregate and on
    nothing else.  In development the answers of the server never
    reach them (although the five requests are issued), in production
    the bundled data never do, and in production what the server
    answers later, or for other paths than the five, makes no
    difference to any state the component ever reaches. *)
Theorem state_depends_on_selected_load_only
    (w w' : World) (imp imp' : Bundle) (evs : list Event) :
  state (run (mkEnv false w imp) evs (boot (mkEnv false w imp)))
  = state (run (mkEnv false w' imp) evs (boot (mkEnv false w' imp)))
  /\ state (run (mkEnv true w imp) evs (boot (mkEnv true w imp)))
     = state (run (mkEnv true w imp') evs (boot (mkEnv true w imp')))
  /\ ((forall k, w 0 (url k) = w' 0 (url k)) ->
      state (run (mkEnv true w imp) evs (boot (mkEnv true w imp)))
      = state (run (mkEnv true w' imp) evs (boot (mkEnv true w' imp)))).
Proof.
  split; [|split].
  - apply sv_state, run_same_view; [done | apply boot_same_view].
  - apply sv_state, run_same_view; [done | apply boot_same_view].
  - intros Hw. apply sv_state, run_same_view; [|apply boot_same_view].
    unfold selected. simpl.
    change (Promise_all ((fun k => load_result k (w 0 (url k))) <$> kinds)
            = Promise_all ((fun k => load_result k (w' 0 (url k))) <$> kinds)).
    f_equal. apply list_fmap_ext. intros _ k _. by rewrite Hw.
Qed.

Lemma state_depends_on_selected_load_only_witness :
  (forall k, Samples.healthy 0 (url k) = Samples.changing 0 (url k))
  /\ state (run (Samples.production Samples.healthy) [Render; Job; Tick; Refresh; Job]
              (boot (Samples.production Samples.healthy)))
     = state (run (Samples.production Samples.changing) [Render; Job; Tick; Refresh; Job]
                (boot (Samples.production Samples.changing))).
Proof.
  assert (H : forall k, Samples.healthy 0 (url k) = Samples.changing 0 (url k)).
  { by intros []. }
  split; [exact H|].
  exact (proj2 (proj2 (state_depends_on_selected_load_only Samples.healthy Samples.changing
                         Samples.bundle Samples.bundle
                         [Render; Job; Tick; Refresh; Job])) H).
Defined.

(** ** The settings *)

Lemma play_snoc getTheme themes evs ev p :
  settings.play getTheme themes (evs ++ [ev]) p
  = settings.handle getTheme themes (settings.play getTheme themes evs p) ev.
Proof. apply foldl_snoc. Qed.

(** X9.  Only [undefined] suppresses the settings: [Settings] returns
    the empty fragment exactly when [themes] is not given, and then no
    handler exists and no sequence of user events changes anything or
    calls anything; for every array of themes, the empty one included,
    it returns the modal with the two selects over that array and the
    current labels, and a click on "Refresh" calls
    [window.location.reload()]. *)
Theorem settings_need_themes
    (getTheme : string -> settings.IThemeProps)
    (themes : option (list settings.IThemeProps))
    (evs : list settings.UserEvent) (p : settings.Page) :
  (settings.Settings getTheme themes = settings.Fragment <-> themes = None)
  /\ settings.play getTheme None evs p = p
  /\ forall l : list settings.IThemeProps,
      settings.Settings getTheme (Some l)
      = settings.Modal l (settings.label (getTheme "light"))
                       l (settings.label (getTheme "dark"))
      /\ settings.play getTheme (Some l) [settings.ClickRefresh] p
         = settings.mkPage (settings.hooks p) (settings.calls p ++ [settings.reload]).
Proof.
  split; [|split].
  - split; [by destruct themes | by intros ->].
  - revert p. induction evs as [|ev evs IH]; intros p; [done|]. simpl. apply IH.
  - done.
Qed.

Lemma settings_need_themes_witness :
  settings.play settings.getTheme_classic None
    [settings.ChangeLight (Some (settings.classic 0)); settings.ClickSubmit;
     settings.ClickRefresh] settings.mount
  = settings.mount
  /\ settings.Settings settings.getTheme_classic (Some settings.themes)
     = settings.Modal settings.themes "Classic" settings.themes "Classic".
Proof.
  destruct (settings_need_themes settings.getTheme_classic None
              [settings.ChangeLight (Some (settings.classic 0)); settings.ClickSubmit;
               settings.ClickRefresh] settings.mount) as (_ & Hnone & Hsome).
  split; [exact Hnone | exact (proj1 (Hsome settings.themes))].
Defined.

Lemma settings_hooks getTheme themes evs p :
  Forall settings.is_selection evs ->
  settings.play getTheme (Some themes) evs p
  = settings.mkPage
      (settings.mkHooks
         (settings.last_light evs (settings.newLightTheme (settings.hooks p)))
         (settings.last_dark evs (settings.newDarkTheme (settings.hooks p))))
      (settings.calls p).
Proof.
  intros Hevs. revert p. induction Hevs as [|ev evs Hev _ IH]; intros p.
  - by destruct p as [[] ?].
  - simpl. rewrite IH. by destruct ev.
Qed.

(** X10.  After any sequence of selections in the two selects, a click
    on "Apply" calls [setTheme] for the light theme and then for the
    dark theme, each with the theme that its select reported last, and
    makes no call for a select that reported no theme (none at all, or
    [undefined] last); the selections themselves are kept, so that a
    second click repeats the same calls. *)
Theorem apply_sets_last_selected_themes
    (getTheme : string -> settings.IThemeProps) (themes : list settings.IThemeProps)
    (evs : list settings.UserEvent) :
  Forall settings.is_selection evs ->
  settings.play getTheme (Some themes) (evs ++ [settings.ClickSubmit]) settings.mount
  = settings.mkPage
      (settings.mkHooks (settings.last_light evs None) (settings.last_dark evs None))
      (settings.applied (settings.last_light evs None) (settings.last_dark evs None))
  /\ settings.calls
       (settings.play getTheme (Some themes)
          (evs ++ [settings.ClickSubmit; settings.ClickSubmit]) settings.mount)
     = settings.applied (settings.last_light evs None) (settings.last_dark evs None)
       ++ settings.applied (settings.last_light evs None) (settings.last_dark evs None).
Proof.
  intros Hevs.
  assert (H1 : settings.play getTheme (Some themes) (evs ++ [settings.ClickSubmit])
                 settings.mount
               = settings.mkPage
                   (settings.mkHooks (settings.last_light evs None)
                      (settings.last_dark evs None))
                   (settings.applied (settings.last_light evs None)
                      (settings.last_dark evs None))).
  { rewrite play_snoc, settings_hooks by done. simpl.
    unfold settings.submit, settings.applied. simpl.
    by destruct (settings.last_light evs None), (settings.last_dark evs None). }
  split; [exact H1|].
  change [settings.ClickSubmit; settings.ClickSubmit]
    with ([settings.ClickSubmit] ++ [settings.ClickSubmit]).
  rewrite app_assoc, play_snoc, H1. simpl.
  unfold settings.submit, settings.applied. simpl.
  destruct (settings.last_light evs None), (settings.last_dark evs None); done.
Qed.

Lemma apply_sets_last_selected_themes_witness :
  settings.calls
    (settings.play settings.getTheme_classic (Some settings.themes)
       ([settings.ChangeLight (Some (settings.classic 0));
         settings.ChangeDark (Some (settings.classic 1));
         settings.ChangeLight (Some (settings.classic 1));
         settings.ChangeDark None] ++ [settings.ClickSubmit]) settings.mount)
  = [settings.setTheme "light" (settings.classic 1)].
Proof.
  assert (Hevs : Forall settings.is_selection
                   [settings.ChangeLight (Some (settings.classic 0));
                    settings.ChangeDark (Some (settings.classic 1));
                    settings.ChangeLight (Some (settings.classic 1));
                    settings.ChangeDark None]).
  { repeat constructor. }
  exact (f_equal settings.calls
           (proj1 (apply_sets_last_selected_themes settings.getTheme_classic
                     settings.themes _ Hevs))).
Defined.

Lemma settings_calls_without_submit getTheme themes evs p :
  settings.ClickSubmit ∉ evs ->
  settings.calls (settings.play getTheme (Some themes) evs p)
  = settings.calls p
    ++ replicate (settings.refresh_clicks evs) settings.reload.
Proof.
  revert p. induction evs as [|ev evs IH]; intros p Hevs.
  - simpl. by rewrite app_nil_r.
  - apply not_elem_of_cons in Hevs as [Hev Hevs]. simpl. rewrite IH by done.
    destruct ev; simpl; try done. by rewrite <- app_assoc.
Qed.

(** X11.  [setTheme] is called by "Apply" and by nothing else: as long
    as "Apply" is not clicked, whatever is selected, the only calls
    that the settings make are those of [window.location.reload()],
    one for each click on "Refresh". *)
Theorem only_apply_calls_setTheme
    (getTheme : string -> settings.IThemeProps) (themes : list settings.IThemeProps)
    (evs : list settings.UserEvent) :
  settings.ClickSubmit ∉ evs ->
  settings.calls (settings.play getTheme (Some themes) evs settings.mount)
  = replicate (settings.refresh_clicks evs) settings.reload.
Proof. intros Hevs. by rewrite settings_calls_without_submit. Qed.

Lemma only_apply_calls_setTheme_witness :
  settings.calls
    (settings.play settings.getTheme_classic (Some settings.themes)
       [settings.ChangeLight (Some (settings.classic 0)); settings.ClickRefresh;
        settings.ChangeDark (Some (settings.classic 1)); settings.ClickRefresh]
       settings.mount)
  = [settings.reload; settings.reload].
Proof.
  assert (Hevs : settings.ClickSubmit ∉
                   [settings.ChangeLight (Some (settings.classic 0)); settings.ClickRefresh;
                    settings.ChangeDark (Some (settings.classic 1)); settings.ClickRefresh]).
  { intros H. repeat (apply elem_of_cons in H as [H|H]; [discriminate H|]).
    by apply elem_of_nil in H. }
  exact (only_apply_calls_setTheme settings.getTheme_classic settings.themes _ Hevs).
Defined.

(** ** The fields of a payload *)

(** X12.  The store never drops or alters a field of a payload: after
    a completed cycle in which the [error] of the results of the kinds
    stored before it can be read (none is the JSON [null]), for a
    resource that loaded an object, under either loading strategy,
    every field of the slice other than [error] is the field of the
    payload, present or absent as in the payload. *)
Theorem payload_fields_are_kept
    (env : Env) (results : list value) (evs : list Event) (s' : Slices)
    (k : Kind) (o : gmap string value) (name : string) :
  selected env (consts (boot env)) = Fulfilled results ->
  reaches results k ->
  payload env k = Fulfilled (VObj o) ->
  cycle_completes env evs s' ->
  name ≠ "error" ->
  field name (slice k s') = o !! name.
Proof.
  intros Hsel Hbefore Hk Hcycle Hname.
  pose proof (payload_position _ _ _ _ Hsel Hk) as Hpos.
  rewrite (cycle_reaches env results evs s' k Hsel Hcycle Hbefore)
    by (rewrite Hpos; apply get_error_object).
  rewrite Hpos, stored_object.
  destruct (truthy _); simpl; [done|]. by rewrite lookup_insert_ne.
Qed.

Lemma payload_fields_are_kept_witness :
  field "groups" (slice Bookmarks (callback_then Samples.stray_error_results initial).2)
  = Samples.bookmarks_with_error !! "groups".
Proof.
  assert (Hbefore : reaches Samples.stray_error_results Bookmarks).
  { intros [] H; simpl in H; try lia. by eexists. }
  assert (Hname : "groups" ≠ "error") by discriminate.
  exact (payload_fields_are_kept (Samples.production Samples.stray_error)
           Samples.stray_error_results [Render]
           (callback_then Samples.stray_error_results initial).2 Bookmarks
           Samples.bookmarks_with_error "groups" eq_refl Hbefore eq_refl
           (cycle_completes_first (Samples.production Samples.stray_error)
              Samples.stray_error_results eq_refl) Hname).
Defined.
